(** * useSubmitter: the change-aware form submission pipeline

    A shallow embedding of [src/useSubmitter.ts] (react-form-submitter) and of
    the variant of the hook with form reset and baseline refresh.

    - JavaScript values are a tree type; composite values carry an identity
      tag, since [===] on objects compares references.
    - The objects handed around by reference (form data, default values, the
      diff) live in a store indexed by locations, so that aliasing and the
      in-place update of [mutate_data] are visible.
    - The hook body is a state-and-exception monad over the store, the
      [isFailed] flag, the locals of [submitter] and a log of every call made
      to the outside world ([fetch], [confirm], the destination, the
      callbacks).
    - [await] on a value that is already there only yields to the scheduler;
      one call of [submitter] is modelled in isolation, so it is the identity. *)

From Stdlib Require Import ZArith String Ascii List Bool DecimalString Lia.
From stdpp Require Import base list strings.
Import ListNotations.

Local Open Scope Z_scope.
Set Warnings "-register-all".

(** ** JavaScript values *)

(** Object identity and store addresses. *)
Abbreviation loc := nat (only parsing).

(** A number is NaN or an integer-valued double in the safe range; [Num 0]
    stands for both zeros, which [===], truthiness and [JSON.stringify] do not
    tell apart. *)
Inductive number :=
| NaN
| Num (z : Z).

(** The four metadata fields of a [File] that [is_same_files] reads. *)
Record File := mkFile {
  file_name : string;
  file_size : Z;
  file_type : string;
  file_lastModified : Z
}.

Inductive value :=
| VUndefined
| VNull
| VBool (b : bool)
| VNumber (n : number)
| VBigInt (z : Z)
| VString (s : string)
| VFile (id : loc) (f : File)
| VArray (id : loc) (elems : list value)
| VObject (id : loc) (props : list (string * value)).

(** An object used as a record: its own enumerable string-keyed properties,
    in [Object.entries] order. The keys of an object are pairwise distinct;
    the properties below ask for that where they need it. *)
Definition object := list (string * value).

(** What a [throw] carries: a [TypeError] raised by a builtin, or any value
    thrown by user code. *)
Inductive exn :=
| TypeError (msg : string)
| Thrown (v : value).

Inductive result (A : Type) :=
| Ok (a : A)
| Throw (e : exn).
Arguments Ok {A} a.
Arguments Throw {A} e.

Definition is_ok {A} (r : result A) : bool :=
  match r with Ok _ => true | Throw _ => false end.

(** [!v] is [negb (truthy v)]. *)
Definition truthy (v : value) : bool :=
  match v with
  | VUndefined | VNull => false
  | VBool b => b
  | VNumber NaN => false
  | VNumber (Num z) => negb (Z.eqb z 0)
  | VBigInt z => negb (Z.eqb z 0)
  | VString s => negb (String.eqb s "")
  | VFile _ _ | VArray _ _ | VObject _ _ => true
  end.

(** [v === d]. *)
Definition strict_eq (v d : value) : bool :=
  match v, d with
  | VUndefined, VUndefined => true
  | VNull, VNull => true
  | VBool a, VBool b => Bool.eqb a b
  | VNumber (Num a), VNumber (Num b) => Z.eqb a b
  | VBigInt a, VBigInt b => Z.eqb a b
  | VString a, VString b => String.eqb a b
  | VFile i _, VFile j _ => Nat.eqb i j
  | VArray i _, VArray j _ => Nat.eqb i j
  | VObject i _, VObject j _ => Nat.eqb i j
  | _, _ => false
  end.

(** [v == undefined]. *)
Definition is_nullish (v : value) : bool :=
  match v with
  | VUndefined | VNull => true
  | _ => false
  end.

(** ** Property access on records *)

Section Props.
Context {V : Type}.

(** The own property [key], if any. *)
Fixpoint own_prop (o : list (string * V)) (key : string) : option V :=
  match o with
  | [] => None
  | (k, v) :: rest => if String.eqb k key then Some v else own_prop rest key
  end.

(** [o[key] = v]: an existing property is overwritten where it stands, a new
    one goes last. *)
Fixpoint set_prop (o : list (string * V)) (key : string) (v : V)
  : list (string * V) :=
  match o with
  | [] => [(key, v)]
  | (k, w) :: rest =>
      if String.eqb k key then (k, v) :: rest
      else (k, w) :: set_prop rest key v
  end.

(** [Object.keys(o)]. *)
Definition Object_keys (o : list (string * V)) : list string := map fst o.

(** [{...base, ...extra}]. *)
Definition spread (base extra : list (string * V)) : list (string * V) :=
  fold_left (fun acc kv => set_prop acc (fst kv) (snd kv)) extra base.
End Props.

(** [o[key]]: a missing property reads as [undefined]. *)
Definition get_prop (o : object) (key : string) : value :=
  match own_prop o key with
  | Some v => v
  | None => VUndefined
  end.

(** ** JSON.stringify *)

Definition dquote : string := String (ascii_of_nat 34) EmptyString.
Definition backslash : string := String (ascii_of_nat 92) EmptyString.

Definition hex_digit (n : nat) : ascii :=
  nth n (list_ascii_of_string "0123456789abcdef") "0"%char.

(** The escape of one code unit inside a JSON string literal. *)
Definition quote_char (c : ascii) : string :=
  let n := nat_of_ascii c in
  if Nat.eqb n 8 then String.append backslash "b"
  else if Nat.eqb n 9 then String.append backslash "t"
  else if Nat.eqb n 10 then String.append backslash "n"
  else if Nat.eqb n 12 then String.append backslash "f"
  else if Nat.eqb n 13 then String.append backslash "r"
  else if Nat.eqb n 34 then String.append backslash dquote
  else if Nat.eqb n 92 then String.append backslash backslash
  else if Nat.ltb n 32 then
    String.append backslash
      (String "u" (String "0" (String "0"
        (String (hex_digit (Nat.div n 16))
          (String (hex_digit (Nat.modulo n 16)) EmptyString)))))
  else String c EmptyString.

Fixpoint quote_chars (s : string) : string :=
  match s with
  | EmptyString => EmptyString
  | String c rest => String.append (quote_char c) (quote_chars rest)
  end.

Definition QuoteJSONString (s : string) : string :=
  String.append dquote (String.append (quote_chars s) dquote).

Definition number_to_string (n : number) : string :=
  match n with
  | NaN => "NaN"
  | Num z => NilZero.string_of_int (Z.to_int z)
  end.

Fixpoint join (sep : string) (parts : list string) : string :=
  match parts with
  | [] => EmptyString
  | [p] => p
  | p :: rest => String.append p (String.append sep (join sep rest))
  end.

(** [JSON.stringify(v)] without replacer or indentation. [None] is the
    [undefined] it returns for [undefined]; a BigInt makes it throw. *)
Fixpoint JSON_stringify (v : value) : result (option string) :=
  match v with
  | VUndefined => Ok None
  | VNull => Ok (Some "null"%string)
  | VBool true => Ok (Some "true"%string)
  | VBool false => Ok (Some "false"%string)
  | VNumber NaN => Ok (Some "null"%string)
  | VNumber (Num z) => Ok (Some (number_to_string (Num z)))
  | VBigInt _ => Throw (TypeError "Do not know how to serialize a BigInt")
  | VString s => Ok (Some (QuoteJSONString s))
  | VFile _ _ => Ok (Some "{}"%string)
  | VArray _ elems =>
      let fix items (l : list value) : result (list string) :=
        match l with
        | [] => Ok []
        | x :: rest =>
            match JSON_stringify x with
            | Throw e => Throw e
            | Ok o =>
                match items rest with
                | Throw e => Throw e
                | Ok parts =>
                    Ok (match o with Some s => s | None => "null"%string end
                        :: parts)
                end
            end
        end in
      match items elems with
      | Throw e => Throw e
      | Ok parts =>
          Ok (Some (String.append "[" (String.append (join "," parts) "]")))
      end
  | VObject _ props =>
      let fix members (l : list (string * value)) : result (list string) :=
        match l with
        | [] => Ok []
        | (k, x) :: rest =>
            match JSON_stringify x with
            | Throw e => Throw e
            | Ok o =>
                match members rest with
                | Throw e => Throw e
                | Ok parts =>
                    Ok (match o with
                        | Some s =>
                            String.append (QuoteJSONString k)
                              (String.append ":" s) :: parts
                        | None => parts
                        end)
                end
            end
        end in
      match members props with
      | Throw e => Throw e
      | Ok parts =>
          Ok (Some (String.append "{" (String.append (join "," parts) "}")))
      end
  end.

(** ** FormData *)

Inductive FormDataEntryValue :=
| FString (s : string)
| FFile (id : loc) (f : File).

(** The entry list of a [FormData], in insertion order. *)
Definition FormData := list (string * FormDataEntryValue).

(** What the loop of [to_form_data_without_default] hands to [append]: a
    string, a [File], or the [undefined] that [JSON.stringify] may return. *)
Inductive form_value :=
| FVString (s : string)
| FVFile (id : loc) (f : File)
| FVUndefined.

(** [append] stores strings and files as they are and converts anything
    else to a string: [undefined] becomes the text ["undefined"]. *)
Definition to_entry_value (x : form_value) : FormDataEntryValue :=
  match x with
  | FVString s => FString s
  | FVFile id f => FFile id f
  | FVUndefined => FString "undefined"
  end.

Definition FormData_append (fd : FormData) (key : string) (x : form_value)
  : FormData :=
  fd ++ [(key, to_entry_value x)].

Definition FormData_has (fd : FormData) (key : string) : bool :=
  existsb (fun e => String.eqb (fst e) key) fd.

Definition FormData_get (fd : FormData) (key : string)
  : option FormDataEntryValue :=
  own_prop fd key.

(** ** The comparison helpers (identical in both variants) *)

(** [is_same_files]: name, size, type and lastModified, nothing else. *)
Definition is_same_files (file default_file : File) : bool :=
  String.eqb (file_name file) (file_name default_file)
  && Z.eqb (file_size file) (file_size default_file)
  && String.eqb (file_type file) (file_type default_file)
  && Z.eqb (file_lastModified file) (file_lastModified default_file).

Definition is_same_values (value default_value : value) : bool :=
  if negb (truthy default_value) then false
  else
    match value with
    | VFile _ file =>
        match default_value with
        | VFile _ default_file => is_same_files file default_file
        | _ => false
        end
    | _ => strict_eq value default_value
    end.

(** [typeof value == "string" || value instanceof File ? value :
    JSON.stringify(value)]. *)
Definition form_value_of (value : value) : result form_value :=
  match value with
  | VString s => Ok (FVString s)
  | VFile id f => Ok (FVFile id f)
  | _ =>
      match JSON_stringify value with
      | Ok (Some s) => Ok (FVString s)
      | Ok None => Ok FVUndefined
      | Throw e => Throw e
      end
  end.

(** The loop of [to_form_data_without_default] over [Object.entries(data)],
    with the [FormData] built so far as accumulator. *)
Fixpoint to_form_data_loop (entries : object) (default_data : option object)
  (form_data : FormData) : result FormData :=
  match entries with
  | [] => Ok form_data
  | (key, value) :: rest =>
      if match default_data with
         | None => true
         | Some d => negb (is_same_values value (get_prop d key))
         end
      then
        match form_value_of value with
        | Throw e => Throw e
        | Ok form_value =>
            to_form_data_loop rest default_data
              (FormData_append form_data key form_value)
        end
      else to_form_data_loop rest default_data form_data
  end.

(** The loop of [without_defaults] over [Object.entries(values)], with
    [submit_values] as accumulator. The keys arrive in the order of
    [Object.entries], so assigning them one after the other to an empty
    record keeps that order. *)
Fixpoint without_defaults_loop (entries : object) (defaultValues : object)
  (submit_values : object) : object :=
  match entries with
  | [] => submit_values
  | (key, value) :: rest =>
      if negb (is_same_values value (get_prop defaultValues key))
      then without_defaults_loop rest defaultValues
             (set_prop submit_values key value)
      else without_defaults_loop rest defaultValues submit_values
  end.

(** ** The outside world *)

(** The part of a [Response] the hook reads, and the status the tests set. *)
Record Response := mkResponse {
  ok : bool;
  status : Z
}.

(** The options object given to [fetch]. *)
Inductive init_value :=
| IString (s : string)
| IFormData (fd : FormData)
| IValue (v : value).

Definition RequestInit := list (string * init_value).

(** The submit event given by the form library. *)
Inductive BaseSyntheticEvent :=
| SyntheticEvent (id : nat).

(** Every call that leaves the hook, with its arguments. *)
Inductive event :=
| EvPreventDefault
| EvTransform (data : loc)
| EvConfirm (message : string) (answer : bool)
| EvFetch (input : string) (init : RequestInit)
| EvDestination (data : loc)
| EvOnSuccess (data : loc) (response : option Response)
| EvOnFailure (data : loc) (response : option Response)
| EvOnError (e : exn)
| EvMutate (data : loc)
| EvReset (data : option loc).

(** The store: location [l] holds the record at index [l]. *)
Abbreviation heap := (list object) (only parsing).

(** A function supplied by the caller or the platform: it may read and write
    the store, and returns or throws. *)
Definition external (A B : Type) := A -> heap -> result B * heap.

Inductive Destination :=
| Endpoint (url : string)
| Action (f : external loc bool).

(** ** State and monad *)

Record state := mkState {
  st_heap : heap;
  isFailed : bool;
  submitOk : bool;
  response : option Response;
  log : list event
}.

Definition M (A : Type) := state -> result A * state.

Definition ret {A} (a : A) : M A := fun s => (Ok a, s).

Definition bind {A B} (m : M A) (k : A -> M B) : M B :=
  fun s =>
    match m s with
    | (Ok a, s') => k a s'
    | (Throw e, s') => (Throw e, s')
    end.

Declare Scope js_scope.
Delimit Scope js_scope with js.
Notation "x <- m ;; k" := (bind m (fun x => k))
  (at level 100, m at next level, right associativity) : js_scope.
Notation "m ;;; k" := (bind m (fun _ => k))
  (at level 100, right associativity) : js_scope.
Local Open Scope js_scope.

Definition lift {A} (r : result A) : M A := fun s => (r, s).

(** [try body catch (e) handler finally final]. The last block always runs;
    when it completes the earlier outcome stands, when it throws its own
    exception replaces it. *)
Definition try_catch_finally (body : M unit) (handler : exn -> M unit)
  (final : M unit) : M unit :=
  fun s =>
    match body s with
    | (Ok _, s1) => final s1
    | (Throw e, s1) =>
        match handler e s1 with
        | (Ok _, s2) => final s2
        | (Throw e', s2) =>
            match final s2 with
            | (Ok _, s3) => (Throw e', s3)
            | (Throw e'', s3) => (Throw e'', s3)
            end
        end
    end.

(** An [async] function called without [await]: its effects happen, what it
    throws stays in the promise nobody looks at. *)
Definition unawaited (m : M unit) : M unit :=
  fun s => (Ok tt, snd (m s)).

Definition emit (ev : event) : M unit :=
  fun s => (Ok tt, mkState (st_heap s) (isFailed s) (submitOk s) (response s)
                     (log s ++ [ev])).

(** Calling an external function: the call is logged, then it runs on the
    store. *)
Definition call {A B} (ev : event) (f : external A B) (a : A) : M B :=
  fun s =>
    let (r, h) := f a (st_heap s) in
    (r, mkState h (isFailed s) (submitOk s) (response s) (log s ++ [ev])).

Definition setIsFailed (b : bool) : M unit :=
  fun s => (Ok tt, mkState (st_heap s) b (submitOk s) (response s) (log s)).

Definition set_submitOk (b : bool) : M unit :=
  fun s => (Ok tt, mkState (st_heap s) (isFailed s) b (response s) (log s)).

Definition set_response (r : option Response) : M unit :=
  fun s => (Ok tt, mkState (st_heap s) (isFailed s) (submitOk s) r (log s)).

Definition get_submitOk : M bool := fun s => (Ok (submitOk s), s).

Definition get_response : M (option Response) := fun s => (Ok (response s), s).

(** The record at a location. References do not dangle in JavaScript; a
    location outside the store reads as a record without properties. *)
Definition deref (h : heap) (l : loc) : object :=
  match h !! l with
  | Some o => o
  | None => []
  end.

Definition read (l : loc) : M object := fun s => (Ok (deref (st_heap s) l), s).

Definition write (l : loc) (o : object) : M unit :=
  fun s => (Ok tt, mkState (<[l:=o]> (st_heap s)) (isFailed s) (submitOk s)
                     (response s) (log s)).

(** A fresh record. *)
Definition alloc (o : object) : M loc :=
  fun s => (Ok (length (st_heap s)),
            mkState (st_heap s ++ [o]) (isFailed s) (submitOk s) (response s)
              (log s)).

Definition read_opt (l : option loc) : M (option object) :=
  match l with
  | None => ret None
  | Some d => o <- read d ;; ret (Some o)
  end.

(** ** The two preparation functions, on references *)

Definition to_form_data_without_default (data : loc)
  (default_data : option loc) : M FormData :=
  entries <- read data ;;
  defaults <- read_opt default_data ;;
  lift (to_form_data_loop entries defaults []).

(** [without_defaults]: the very reference it was given when there are no
    default values, else a fresh record filled by the loop. The loop writes
    to that record only, so the record is stored once it is complete. *)
Definition without_defaults (values : loc) (defaultValues : option loc)
  : M loc :=
  match defaultValues with
  | None => ret values
  | Some d =>
      entries <- read values ;;
      defaults <- read d ;;
      alloc (without_defaults_loop entries defaults [])
  end.

(** ** The stages both variants share

    Lines 65 to 87 of the hook and lines 243 to 265 of the variant differ in
    the spelling of their names only; they are embedded once, with the
    options they read as arguments. *)

Section Stages.
Variable destination : Destination.
Variable defaultValues : option loc.
Variable method : option string.
Variable transform : option (external loc loc).
Variable fetchOptions : option RequestInit.
Variable confirmation : option string.
(** The platform: [window.confirm] and [fetch]. *)
Variable confirm : string -> bool.
Variable fetch : external (string * RequestInit) Response.

(** [method = "POST"] in the parameter pattern. *)
Definition method_or_default : string :=
  match method with
  | Some m => m
  | None => "POST"%string
  end.

(** [{ method, body: formData, ...fetchOptions }]. *)
Definition fetch_init (formData : FormData) : RequestInit :=
  spread [("method"%string, IString method_or_default);
          ("body"%string, IFormData formData)]
    (match fetchOptions with
     | Some opts => opts
     | None => []
     end).

(** The event, the transform, the locals, the prompt. [None] is the early
    [return]. *)
Definition prelude (data : loc) (event : option BaseSyntheticEvent)
  : M (option loc) :=
  (match event with
   | Some _ => emit EvPreventDefault
   | None => ret tt
   end) ;;;
  transformedData <-
    (match transform with
     | Some f => call (EvTransform data) f data
     | None => ret data
     end) ;;
  set_submitOk false ;;;
  set_response None ;;;
  match confirmation with
  | Some message =>
      if negb (String.eqb message "")
      then
        let answer := confirm message in
        emit (EvConfirm message answer) ;;;
        if negb answer then ret None else ret (Some transformedData)
      else ret (Some transformedData)
  | None => ret (Some transformedData)
  end.

(** The two kinds of destination, up to the assignment of [submitOk]. *)
Definition dispatch (transformedData : loc) : M unit :=
  match destination with
  | Endpoint url =>
      formData <-
        to_form_data_without_default transformedData defaultValues ;;
      let init := fetch_init formData in
      r <- call (EvFetch url init) fetch (url, init) ;;
      set_response (Some r) ;;;
      set_submitOk (ok r)
  | Action f =>
      diff <- without_defaults transformedData defaultValues ;;
      r <- call (EvDestination diff) f diff ;;
      set_submitOk r
  end.
End Stages.

(** ** The hook: [useSubmitter] *)

Module Submitter.

Record UseSubmitterParams := mkParams {
  defaultValues : option loc;
  method : option string;
  onSuccess : option (external (loc * option Response) unit);
  onFailure : option (external (loc * option Response) unit);
  onError : option (external exn unit);
  transform : option (external loc loc);
  fetchOptions : option RequestInit;
  confirmation : option string;
  mutate : option (external loc unit)
}.

Section Hook.
Variable destination : Destination.
Variable params : UseSubmitterParams.
Variable confirm : string -> bool.
Variable fetch : external (string * RequestInit) Response.

Definition try_block (transformedData : loc) : M unit :=
  dispatch destination (defaultValues params) (method params)
    (fetchOptions params) fetch transformedData ;;;
  submit_ok <- get_submitOk ;;
  match onFailure params with
  | Some f =>
      if negb submit_ok
      then
        r <- get_response ;;
        call (EvOnFailure transformedData r) f (transformedData, r)
      else ret tt
  | None => ret tt
  end.

Definition catch_block (e : exn) : M unit :=
  match onError params with
  | Some f => call (EvOnError e) f e
  | None => ret tt
  end.

Definition finally_block (transformedData : loc) : M unit :=
  submit_ok <- get_submitOk ;;
  if submit_ok
  then
    setIsFailed false ;;;
    (match onSuccess params with
     | Some f =>
         r <- get_response ;;
         call (EvOnSuccess transformedData r) f (transformedData, r)
     | None => ret tt
     end) ;;;
    match mutate params with
    | Some f => call (EvMutate transformedData) f transformedData
    | None => ret tt
    end
  else setIsFailed true.

Definition submitter (data : loc) (event : option BaseSyntheticEvent)
  : M unit :=
  go <- prelude (transform params) (confirmation params) confirm
          data event ;;
  match go with
  | None => ret tt
  | Some transformedData =>
      try_catch_finally (try_block transformedData) catch_block
        (finally_block transformedData)
  end.
End Hook.

End Submitter.

(** ** The variant with form reset and baseline refresh *)

Module ResetSubmitter.

Record UseSubmitterParams := mkParams {
  default_values : option loc;
  reset : option (external (option loc) unit);
  method : option string;
  on_success : option (external (loc * option Response) unit);
  on_error : option (external exn unit);
  transform : option (external loc loc);
  fetch_options : option RequestInit;
  confirmation : option string;
  mutate : option (external loc unit)
}.

(** The loop of [mutate_data] over [Object.keys(default_values)].
    [new_data] is the reference [default_values] itself, so every
    assignment goes to the caller's record, and both reads see the store as
    the earlier rounds left it. *)
Fixpoint mutate_data_loop (keys : list string) (data new_data : loc)
  : M unit :=
  match keys with
  | [] => ret tt
  | key :: rest =>
      current <- read new_data ;;
      let old_value := get_prop current key in
      submitted <- read data ;;
      let new_value := get_prop submitted key in
      (if is_nullish old_value || is_nullish new_value
       then write new_data (set_prop current key new_value)
       else ret tt) ;;;
      mutate_data_loop rest data new_data
  end.

Definition mutate_data (mutate : external loc unit) (data : loc)
  (default_values : option loc) : M unit :=
  match default_values with
  | None => call (EvMutate data) mutate data
  | Some d =>
      let new_data := d in
      current <- read d ;;
      mutate_data_loop (Object_keys current) data new_data ;;;
      call (EvMutate new_data) mutate new_data
  end.

Section Hook.
Variable destination : Destination.
Variable params : UseSubmitterParams.
Variable confirm : string -> bool.
Variable fetch : external (string * RequestInit) Response.

(** The [try] block of this variant is the dispatch alone: it has no
    failure callback. *)
Definition try_block (transed_data : loc) : M unit :=
  dispatch destination (default_values params) (method params)
    (fetch_options params) fetch transed_data.

Definition catch_block (e : exn) : M unit :=
  match on_error params with
  | Some f => call (EvOnError e) f e
  | None => ret tt
  end.

Definition finally_block (data transed_data : loc) : M unit :=
  submit_ok <- get_submitOk ;;
  if submit_ok
  then
    setIsFailed false ;;;
    (match reset params with
     | Some f => call (EvReset None) f None
     | None => ret tt
     end) ;;;
    (match on_success params with
     | Some f =>
         r <- get_response ;;
         call (EvOnSuccess transed_data r) f (transed_data, r)
     | None => ret tt
     end) ;;;
    match mutate params with
    | Some f =>
        unawaited (mutate_data f transed_data (default_values params))
    | None => ret tt
    end
  else
    setIsFailed true ;;;
    match reset params with
    | Some f => call (EvReset (Some data)) f (Some data)
    | None => ret tt
    end.

Definition submitter (data : loc) (event : option BaseSyntheticEvent)
  : M unit :=
  go <- prelude (transform params) (confirmation params) confirm
          data event ;;
  match go with
  | None => ret tt
  | Some transed_data =>
      try_catch_finally (try_block transed_data) catch_block
        (finally_block data transed_data)
  end.
End Hook.

End ResetSubmitter.

(** A call starts with an empty log. *)
Definition start (h : heap) (failed : bool) : state :=
  mkState h failed false None [].

(** ** The equality rule in the words of the specification *)

(** File-like values are equal when name, size, type and lastModified agree;
    all other values when they are strictly identical. *)
Definition spec_equal (v d : value) : bool :=
  match v, d with
  | VFile _ f, VFile _ g =>
      String.eqb (file_name f) (file_name g)
      && Z.eqb (file_size f) (file_size g)
      && String.eqb (file_type f) (file_type g)
      && Z.eqb (file_lastModified f) (file_lastModified g)
  | _, _ => strict_eq v d
  end.

(** A key is left out when the default value there is truthy and equal. *)
Definition spec_excluded (defaults : object) (k : string) (v : value) : Prop :=
  truthy (get_prop defaults k) = true
  ∧ spec_equal v (get_prop defaults k) = true.

(** The test of both loops. *)
Definition changed (defaults : object) (kv : string * value) : bool :=
  negb (is_same_values (snd kv) (get_prop defaults (fst kv))).

(** How a payload entry renders a value. *)
Definition rendered (v : value) (e : FormDataEntryValue) : Prop :=
  match v with
  | VString s => e = FString s
  | VFile id f => e = FFile id f
  | _ =>
      (∃ s, JSON_stringify v = Ok (Some s) ∧ e = FString s)
      ∨ (JSON_stringify v = Ok None ∧ e = FString "undefined")
  end.

(** Which entries the encoding loop keeps. *)
Definition kept (defaults : option object) (kv : string * value) : bool :=
  match defaults with
  | None => true
  | Some d => changed d kv
  end.

(** A payload entry matches a data entry: same key, rendered value. *)
Definition encodes (kv : string * value) (ke : string * FormDataEntryValue)
  : Prop :=
  fst ke = fst kv ∧ rendered (snd kv) (snd ke).

Arguments prelude : simpl never.
Arguments dispatch : simpl never.
Arguments ResetSubmitter.mutate_data : simpl never.

(** ** What [mutate_data] leaves in the defaults *)

(** One round of the loop, on the record itself. *)
Definition refresh_key (submitted current : object) (key : string) : object :=
  if is_nullish (get_prop current key) || is_nullish (get_prop submitted key)
  then set_prop current key (get_prop submitted key)
  else current.

(** Entry by entry: the submitted value where the old or the submitted value
    is [undefined] or [null], the old value elsewhere. *)
Definition refreshed (defaults submitted : object) : object :=
  map (fun kv =>
         (fst kv,
          if is_nullish (snd kv) || is_nullish (get_prop submitted (fst kv))
          then get_prop submitted (fst kv)
          else snd kv))
    defaults.

(** The merge rule in the words of the specification: for every key of the
    baseline, the newly submitted value if present, else the baseline value. *)
Definition spec_merged (defaults submitted : object) : object :=
  map (fun kv =>
         (fst kv,
          match own_prop submitted (fst kv) with
          | Some v => v
          | None => snd kv
          end))
    defaults.

(** The state with another store. *)
Definition with_heap (s : state) (h : heap) : state :=
  mkState h (isFailed s) (submitOk s) (response s) (log s).

(** ** Reading the log *)

Inductive kind :=
| KPreventDefault
| KTransform
| KConfirm
| KFetch
| KDestination
| KOnSuccess
| KOnFailure
| KOnError
| KMutate
| KReset.

Definition kind_of (ev : event) : kind :=
  match ev with
  | EvPreventDefault => KPreventDefault
  | EvTransform _ => KTransform
  | EvConfirm _ _ => KConfirm
  | EvFetch _ _ => KFetch
  | EvDestination _ => KDestination
  | EvOnSuccess _ _ => KOnSuccess
  | EvOnFailure _ _ => KOnFailure
  | EvOnError _ => KOnError
  | EvMutate _ => KMutate
  | EvReset _ => KReset
  end.

Definition kind_eqb (a b : kind) : bool :=
  match a, b with
  | KPreventDefault, KPreventDefault
  | KTransform, KTransform
  | KConfirm, KConfirm
  | KFetch, KFetch
  | KDestination, KDestination
  | KOnSuccess, KOnSuccess
  | KOnFailure, KOnFailure
  | KOnError, KOnError
  | KMutate, KMutate
  | KReset, KReset => true
  | _, _ => false
  end.

(** How many calls of kind [k] a log holds. *)
Definition fired (k : kind) (evs : list event) : nat :=
  length (List.filter (fun ev => kind_eqb (kind_of ev) k) evs).

(** The calls the prelude can make, and those the dispatch can make. *)
Definition prelude_kind (k : kind) : bool :=
  match k with
  | KPreventDefault | KTransform | KConfirm => true
  | _ => false
  end.

Definition dispatch_kind (k : kind) : bool :=
  match k with
  | KFetch | KDestination => true
  | _ => false
  end.

(** An external function that returns normally whatever it is given. *)
Definition never_throws {A B} (f : external A B) : Prop :=
  ∀ a h, is_ok (fst (f a h)) = true.

Definition never_throws_opt {A B} (f : option (external A B)) : Prop :=
  ∀ g, f = Some g → never_throws g.

(** ** Concrete stores and callers used to run the model *)

Module Example.

(** The defaults and the input of the specification's endpoint example. *)
Definition defaults : object :=
  [("name"%string, VString "Nir"); ("age"%string, VNumber (Num 30))].

Definition data : object :=
  [("name"%string, VString "Nir"); ("age"%string, VNumber (Num 31))].

(** The input at location 0, the defaults at location 1. *)
Definition store : heap := [data; defaults].

(** Callbacks that return, and one that throws. *)
Definition returns {A} : external A unit := fun _ h => (Ok tt, h).

Definition throws {A} : external A unit :=
  fun _ h => (Throw (Thrown (VString "boom")), h).

(** Platforms: the user accepts or declines, the server answers 200, 400
    or the network fails. *)
Definition accept : string -> bool := fun _ => true.
Definition decline : string -> bool := fun _ => false.

Definition fetch_200 : external (string * RequestInit) Response :=
  fun _ h => (Ok (mkResponse true 200), h).

Definition fetch_400 : external (string * RequestInit) Response :=
  fun _ h => (Ok (mkResponse false 400), h).

Definition fetch_fails : external (string * RequestInit) Response :=
  fun _ h => (Throw (TypeError "Failed to fetch"), h).

(** A server action that reports failure. *)
Definition action_false : external loc bool := fun _ h => (Ok false, h).

Definition url : string := "https://example.com".

(** Every callback set, a confirmation message, defaults at location 1. *)
Definition all_callbacks : Submitter.UseSubmitterParams :=
  Submitter.mkParams (Some 1%nat) None (Some returns) (Some returns)
    (Some returns) None None (Some "Are you sure?"%string) (Some returns).

(** A failure callback that throws. *)
Definition throwing_onFailure : Submitter.UseSubmitterParams :=
  Submitter.mkParams None None (Some returns) (Some throws) (Some returns)
    None None None (Some returns).

(** Defaults with a blank field, and an input that fills it. *)
Definition defaults_blank : object :=
  [("name"%string, VString "Nir"); ("nick"%string, VNull)].

Definition data_nick : object :=
  [("name"%string, VString "Nir"); ("nick"%string, VString "N")].

Definition store_blank : heap := [data_nick; defaults_blank].

(** An input that does not have the field [name]. *)
Definition data_age_only : object := [("age"%string, VNumber (Num 30))].

Definition store_age_only : heap := [data_age_only; defaults].

(** A transform that throws. *)
Definition throwing_transform : Submitter.UseSubmitterParams :=
  Submitter.mkParams None None (Some returns) (Some returns) (Some returns)
    (Some (fun _ h => (Throw (Thrown (VString "boom")), h))) None None
    (Some returns).

(** Transport options that name a method of their own. *)
Definition put_options : Submitter.UseSubmitterParams :=
  Submitter.mkParams None None (Some returns) (Some returns) (Some returns)
    None (Some [("method"%string, IString "PUT")]) None (Some returns).

(** Transport options that leave method and body alone. *)
Definition with_credentials : Submitter.UseSubmitterParams :=
  Submitter.mkParams (Some 1%nat) None (Some returns) (Some returns)
    (Some returns) None (Some [("credentials"%string, IString "include")])
    None (Some returns).

(** A server action that reports success. *)
Definition action_true : external loc bool := fun _ h => (Ok true, h).

(** A success callback that throws, and an error callback that throws. *)
Definition throwing_onSuccess : Submitter.UseSubmitterParams :=
  Submitter.mkParams None None (Some throws) (Some returns) (Some returns)
    None None None (Some returns).

Definition throwing_onError : Submitter.UseSubmitterParams :=
  Submitter.mkParams None None (Some returns) (Some returns) (Some throws)
    None None None (Some returns).

(** The variant: every callback set; a mutate callback that throws; no
    callback but [reset]. *)
Definition reset_all : ResetSubmitter.UseSubmitterParams :=
  ResetSubmitter.mkParams (Some 1%nat) (Some returns) None (Some returns)
    (Some returns) None None None (Some returns).

Definition reset_throwing_mutate : ResetSubmitter.UseSubmitterParams :=
  ResetSubmitter.mkParams (Some 1%nat) (Some returns) None (Some returns)
    (Some returns) None None None (Some throws).

(** Data with a BigInt in a field the defaults do not have. *)
Definition data_bigint : object :=
  [("name"%string, VString "Nir"); ("id"%string, VBigInt 7)].

Definition store_bigint : heap := [data_bigint; defaults].

End Example.

(** ** Further notions used by the properties *)


(** An external function that leaves the store as it found it. *)
Definition reads_only {A B} (f : external A B) : Prop :=
  ∀ a h, snd (f a h) = h.

Definition reads_only_opt {A B} (f : option (external A B)) : Prop :=
  ∀ g, f = Some g → reads_only g.

(** A computation that only adds calls of the allowed kinds to the log. *)
Definition emits {A} (allowed : kind → bool) (m : M A) : Prop :=
  ∀ s r s', m s = (r, s') →
    ∃ evs, log s' = log s ++ evs
           ∧ ∀ k, allowed k = false → fired k evs = 0%nat.

(** The calls that can follow the prelude. *)
Definition after_prelude_kind (k : kind) : bool := negb (prelude_kind k).

(** The head of the log of a call: the event, then the transform. *)
Definition prelude_head (data : loc) (submit : option BaseSyntheticEvent)
  (transform : option (external loc loc)) : list event :=
  (match submit with Some _ => [EvPreventDefault] | None => [] end)
  ++ (match transform with Some _ => [EvTransform data] | None => [] end).

(** A computation that leaves every record of the store as it is and at
    most adds records at the end. *)
Definition grows {A} (m : M A) : Prop :=
  ∀ s r s', m s = (r, s') → ∃ extra, st_heap s' = st_heap s ++ extra.

(** * Properties *)

(** ** Records *)

Section PropsFacts.
Context {V : Type}.
Implicit Types (o : list (string * V)) (k : string) (v : V).

Lemma own_prop_None o k : own_prop o k = None ↔ k ∉ Object_keys o.
Proof.
  induction o as [|[k' v'] o IH]; simpl.
  - split; [intros _; apply not_elem_of_nil | done].
  - rewrite not_elem_of_cons. destruct (String.eqb_spec k' k) as [->|Hne].
    + split; [done | intros [? _]; done].
    + rewrite IH. split; [intros ?; split; congruence | intros [_ ?]; done].
Qed.

Lemma elem_of_Object_keys o k v : (k, v) ∈ o → k ∈ Object_keys o.
Proof.
  induction o as [|[k' v'] o IH]; simpl; intros H.
  - by apply elem_of_nil in H.
  - apply elem_of_cons. apply elem_of_cons in H as [[= -> ->]|H]; auto.
Qed.

Lemma own_prop_elem_of o k v : own_prop o k = Some v → (k, v) ∈ o.
Proof.
  induction o as [|[k' v'] o IH]; simpl; [done |].
  destruct (String.eqb_spec k' k) as [->|Hne].
  - intros [= ->]. apply elem_of_cons. by left.
  - intros H. apply elem_of_cons. right. by apply IH.
Qed.

Lemma elem_of_own_prop o k v :
  NoDup (Object_keys o) → (k, v) ∈ o → own_prop o k = Some v.
Proof.
  induction o as [|[k' v'] o IH]; simpl.
  - intros _ H. by apply elem_of_nil in H.
  - intros Hnd Hin. apply NoDup_cons in Hnd as [Hk' Hnd].
    apply elem_of_cons in Hin as [[= -> ->]|Hin].
    + by rewrite String.eqb_refl.
    + destruct (String.eqb_spec k' k) as [->|Hne]; [| by apply IH].
      exfalso. apply Hk'. by apply elem_of_Object_keys with v.
Qed.

Lemma set_prop_fresh o k v : own_prop o k = None → set_prop o k v = o ++ [(k, v)].
Proof.
  induction o as [|[k' v'] o IH]; simpl; [done |].
  destruct (String.eqb k' k); [done |]. intros H. by rewrite IH.
Qed.

Lemma own_prop_app o1 o2 k :
  own_prop (o1 ++ o2) k =
  match own_prop o1 k with Some v => Some v | None => own_prop o2 k end.
Proof.
  induction o1 as [|[k' v'] o1 IH]; simpl; [done |].
  by destruct (String.eqb k' k).
Qed.

Lemma Object_keys_app o1 o2 :
  Object_keys (o1 ++ o2) = Object_keys o1 ++ Object_keys o2.
Proof. unfold Object_keys. apply map_app. Qed.
End PropsFacts.

(** ** The comparison and the two loops *)

Lemma is_same_values_spec v d :
  is_same_values v d = truthy d && spec_equal v d.
Proof.
  unfold is_same_values. destruct (truthy d); simpl; [| done].
  destruct v, d; reflexivity.
Qed.

Lemma changed_false_iff defaults k v :
  changed defaults (k, v) = false ↔ spec_excluded defaults k v.
Proof.
  unfold changed, spec_excluded. simpl. rewrite is_same_values_spec.
  rewrite negb_false_iff, andb_true_iff. done.
Qed.

Lemma without_defaults_loop_filter entries defaults acc :
  NoDup (Object_keys entries) →
  (∀ k, k ∈ Object_keys entries → own_prop acc k = None) →
  without_defaults_loop entries defaults acc
  = acc ++ List.filter (changed defaults) entries.
Proof.
  revert acc. induction entries as [|[k v] rest IH]; intros acc Hnd Hacc.
  - simpl. by rewrite app_nil_r.
  - simpl in Hnd. apply NoDup_cons in Hnd as [Hk Hnd].
    simpl. unfold changed at 1. simpl.
    destruct (is_same_values v (get_prop defaults k)); simpl.
    + apply IH; [done |]. intros k' Hk'. apply Hacc. simpl.
      apply elem_of_cons. by right.
    + rewrite set_prop_fresh by (apply Hacc; simpl; apply elem_of_cons; by left).
      rewrite IH; [by rewrite <- app_assoc | done |].
      intros k' Hk'. rewrite own_prop_app, Hacc
        by (simpl; apply elem_of_cons; by right).
      simpl. destruct (String.eqb_spec k k') as [->|]; done.
Qed.

Lemma form_value_of_rendered v fv :
  form_value_of v = Ok fv → rendered v (to_entry_value fv).
Proof.
  unfold form_value_of, rendered.
  destruct v; try (intros [= <-]; reflexivity);
    (destruct (JSON_stringify _) as [[s|]|e] eqn:E; intros [= <-]; simpl;
     [left; eauto | right; eauto]).
Qed.

Lemma rendered_form_value_of v e :
  rendered v e → ∃ fv, form_value_of v = Ok fv ∧ to_entry_value fv = e.
Proof.
  unfold form_value_of, rendered.
  destruct v; try (intros ->; eexists; split; reflexivity);
    (intros [(s & -> & ->)|[-> ->]]; eexists; split; reflexivity).
Qed.

Lemma to_form_data_loop_Ok entries defaults acc fd :
  to_form_data_loop entries defaults acc = Ok fd
  ↔ ∃ enc, fd = acc ++ enc
           ∧ Forall2 encodes (List.filter (kept defaults) entries) enc.
Proof.
  revert acc fd. induction entries as [|[k v] rest IH]; intros acc fd; simpl.
  - split.
    + intros [= <-]. exists []. split; [by rewrite app_nil_r | constructor].
    + intros (enc & -> & H). inversion H. by rewrite app_nil_r.
  - change (match defaults with
            | Some d => negb (is_same_values v (get_prop d k))
            | None => true
            end) with (kept defaults (k, v)).
    destruct (kept defaults (k, v)).
    + destruct (form_value_of v) as [fv|e] eqn:Efv.
      * rewrite IH. unfold FormData_append. split.
        -- intros (enc & -> & H). exists ((k, to_entry_value fv) :: enc).
           split; [by rewrite <- app_assoc |].
           constructor; [| done]. split; [done |].
           by apply form_value_of_rendered.
        -- intros (enc & -> & H). inversion H as [|? [k' e'] ? enc' [Hk Hr] H']; subst.
           simpl in Hk, Hr. subst k'.
           apply rendered_form_value_of in Hr as (fv' & Hfv' & <-).
           rewrite Efv in Hfv'. injection Hfv' as <-.
           exists enc'. split; [by rewrite <- app_assoc | done].
      * split; [done |]. intros (enc & -> & H).
        inversion H as [|? [k' e'] ? enc' [Hk Hr] H']; subst.
        apply rendered_form_value_of in Hr as (fv' & Hfv' & _). simpl in Hfv'.
        congruence.
    + apply IH.
Qed.

Lemma Forall2_encodes_keys entries enc :
  Forall2 encodes entries enc → map fst enc = Object_keys entries.
Proof.
  induction 1 as [|[k v] [k' e] ? ? [Hk _] _ IH]; simpl; [done |].
  simpl in Hk. by rewrite Hk, IH.
Qed.

Lemma FormData_has_false fd k : FormData_has fd k = false ↔ k ∉ map fst fd.
Proof.
  unfold FormData_has. induction fd as [|[k' e] fd IH]; simpl.
  - split; [intros _; apply not_elem_of_nil | done].
  - rewrite not_elem_of_cons, orb_false_iff, IH.
    destruct (String.eqb_spec k' k) as [->|Hne].
    + split; [intros [? _]; done | intros [? _]; done].
    + split; [intros [_ ?]; split; congruence | intros [_ ?]; done].
Qed.

Lemma elem_of_filter_keys (f : string * value → bool) entries k v :
  NoDup (Object_keys entries) → (k, v) ∈ entries →
  k ∉ Object_keys (List.filter f entries) ↔ f (k, v) = false.
Proof.
  induction entries as [|[k' v'] rest IH]; simpl; intros Hnd Hin.
  - by apply elem_of_nil in Hin.
  - apply NoDup_cons in Hnd as [Hk' Hnd].
    assert (Hsub : ∀ x, x ∈ Object_keys (List.filter f rest) → x ∈ Object_keys rest).
    { clear. induction rest as [|[a b] rest IH]; simpl; [done |].
      intros x. destruct (f (a, b)); simpl; rewrite ?elem_of_cons; intuition. }
    apply elem_of_cons in Hin as [[= -> ->]|Hin].
    + destruct (f (k', v')) eqn:E; simpl.
      * rewrite not_elem_of_cons. split; [intros [? _]; done | done].
      * split; [done |]. intros _ H. by apply Hk', Hsub.
    + assert (k ≠ k') as Hne.
      { intros ->. apply Hk'. by apply elem_of_Object_keys with v. }
      destruct (f (k', v')); simpl; rewrite ?not_elem_of_cons, IH by done;
        intuition.
Qed.

Lemma filter_kept_None entries : List.filter (kept None) entries = entries.
Proof.
  induction entries as [|kv rest IH]; simpl; [done | by rewrite IH].
Qed.

Lemma elem_of_filter_bool {A} (f : A → bool) (l : list A) x :
  x ∈ List.filter f l ↔ x ∈ l ∧ f x = true.
Proof. rewrite !list_elem_of_In. apply filter_In. Qed.

(** ** The diff *)

(** C1. Without default values [without_defaults] hands back the very record
    it was given and the payload has every key of the data. With default
    values, a key of the data is missing from the diff record, and from the
    payload, exactly when the default value at that key is truthy and equal
    to the data's value: files by name, size, type and lastModified, anything
    else by strict identity. What the diff record keeps are entries of the
    data. *)
Theorem diff_excludes_exactly_the_equal_defaults :
  ∀ (s : state) (values : loc),
    NoDup (Object_keys (deref (st_heap s) values)) →
    let data := deref (st_heap s) values in
    without_defaults values None s = (Ok values, s)
    ∧ (∀ fd s', to_form_data_without_default values None s = (Ok fd, s') →
                map fst fd = Object_keys data)
    ∧ ∀ d : loc,
        let defaults := deref (st_heap s) d in
        (∃ diff s',
            without_defaults values (Some d) s = (Ok (length (st_heap s)), s')
            ∧ st_heap s' = st_heap s ++ [diff]
            ∧ (∀ k v, (k, v) ∈ data →
                 own_prop diff k = None ↔ spec_excluded defaults k v)
            ∧ (∀ k v, own_prop diff k = Some v → (k, v) ∈ data))
        ∧ (∀ fd s',
             to_form_data_without_default values (Some d) s = (Ok fd, s') →
             ∀ k v, (k, v) ∈ data →
               FormData_has fd k = false ↔ spec_excluded defaults k v).
Proof.
  intros s values Hnd data. split; [done |]. split.
  - intros fd s'. unfold to_form_data_without_default, bind, read, lift. simpl.
    intros [= H <-]. apply to_form_data_loop_Ok in H as (enc & -> & H).
    simpl. rewrite filter_kept_None in H. by apply Forall2_encodes_keys.
  - intros d defaults. split.
    + eexists _, _. unfold without_defaults, bind, read, alloc. simpl.
      split; [reflexivity |]. simpl. split; [reflexivity |].
      fold data defaults.
      rewrite without_defaults_loop_filter by (done || intros; done).
      simpl. split.
      * intros k v Hin. rewrite own_prop_None, elem_of_filter_keys by done.
        apply changed_false_iff.
      * intros k v H. apply own_prop_elem_of in H.
        by apply elem_of_filter_bool in H as [H _].
    + intros fd s'. unfold to_form_data_without_default, bind, read, lift.
      simpl. intros [= H <-] k v Hin.
      apply to_form_data_loop_Ok in H as (enc & -> & H). simpl.
      rewrite FormData_has_false, (Forall2_encodes_keys _ _ H).
      fold data defaults. simpl.
      change (kept (Some defaults)) with (changed defaults).
      rewrite elem_of_filter_keys by done. apply changed_false_iff.
Qed.

Lemma diff_excludes_exactly_the_equal_defaults_witness :
  NoDup (Object_keys (deref (st_heap (start Example.store false)) 0%nat))
  ∧ without_defaults 0%nat None (start Example.store false)
    = (Ok 0%nat, start Example.store false).
Proof.
  assert (H : NoDup (Object_keys (deref (st_heap (start Example.store false)) 0%nat))).
  { simpl. apply NoDup_cons. split.
    - intros H. apply list_elem_of_singleton in H. discriminate H.
    - apply NoDup_cons. split; [apply not_elem_of_nil | apply NoDup_nil_2]. }
  split; [exact H |].
  exact (proj1 (diff_excludes_exactly_the_equal_defaults
                  (start Example.store false) 0%nat H)).
Defined.

Lemma deref_alloc h o : deref (h ++ [o]) (length h) = o.
Proof. unfold deref. by rewrite (list_lookup_middle h [] o (length h) eq_refl). Qed.

Lemma Forall2_encodes_has entries fd k :
  Forall2 encodes entries fd →
  FormData_has fd k = false ↔ own_prop entries k = None.
Proof.
  intros H. rewrite FormData_has_false, (Forall2_encodes_keys _ _ H).
  symmetry. apply own_prop_None.
Qed.

(** ** The payload *)

(** C8. The payload of an endpoint call matches the diff entry by entry: the
    same keys in the same order, a string or a file as it is, any other value
    as the text [JSON.stringify] gives for it (and the text "undefined" when
    that gives [undefined]); such a payload is returned whenever every kept
    value can be rendered. A key the diff leaves out is not in the payload.
    For defaults name "Nir", age 30 and input name "Nir", age 31 the payload
    has age "31" and no name. *)
Theorem payload_matches_the_diff :
  (∀ (s : state) (data : loc) (default_data : option loc),
     NoDup (Object_keys (deref (st_heap s) data)) →
     ∃ diff s2,
       without_defaults data default_data s = (Ok diff, s2)
       ∧ (∀ fd, to_form_data_without_default data default_data s = (Ok fd, s)
                ↔ Forall2 encodes (deref (st_heap s2) diff) fd)
       ∧ (∀ fd s', to_form_data_without_default data default_data s
                   = (Ok fd, s') →
            s' = s
            ∧ ∀ k, FormData_has fd k = false
                   ↔ own_prop (deref (st_heap s2) diff) k = None))
  ∧ ∃ fd,
      to_form_data_without_default 0%nat (Some 1%nat)
        (start Example.store false)
      = (Ok fd, start Example.store false)
      ∧ FormData_get fd "age" = Some (FString "31")
      ∧ FormData_has fd "name" = false.
Proof.
  split.
  - intros s data default_data Hnd.
    assert (Hchar : ∃ diff s2,
      without_defaults data default_data s = (Ok diff, s2)
      ∧ deref (st_heap s2) diff
        = List.filter
            (kept (match default_data with
                   | Some d => Some (deref (st_heap s) d)
                   | None => None
                   end)) (deref (st_heap s) data)).
    { destruct default_data as [d|]; simpl.
      - eexists _, _. unfold bind, read, alloc. simpl. split; [reflexivity |].
        simpl. rewrite deref_alloc.
        by rewrite without_defaults_loop_filter by (done || intros; done).
      - eexists _, _. split; [reflexivity |]. by rewrite filter_kept_None. }
    destruct Hchar as (diff & s2 & Hwd & Hdiff). exists diff, s2.
    split; [done |]. rewrite Hdiff.
    assert (Hrun : ∀ fd s',
      to_form_data_without_default data default_data s = (Ok fd, s')
      ↔ s' = s
        ∧ to_form_data_loop (deref (st_heap s) data)
            (match default_data with
             | Some d => Some (deref (st_heap s) d)
             | None => None
             end) [] = Ok fd).
    { intros fd s'. unfold to_form_data_without_default, bind, read, lift.
      destruct default_data as [d|]; simpl;
        (split; [intros [= -> ->]; done | intros [-> ->]; done]). }
    split.
    + intros fd. rewrite Hrun, to_form_data_loop_Ok. split.
      * intros (_ & enc & -> & H). done.
      * intros H. split; [done |]. by exists fd.
    + intros fd s' H. apply Hrun in H as [-> H]. split; [done |].
      apply to_form_data_loop_Ok in H as (enc & -> & H). simpl.
      intros k. by apply Forall2_encodes_has.
  - eexists. split; [reflexivity |]. split; reflexivity.
Qed.

Lemma payload_matches_the_diff_witness :
  NoDup (Object_keys (deref (st_heap (start Example.store false)) 0%nat))
  ∧ ∃ diff s2,
      without_defaults 0%nat (Some 1%nat) (start Example.store false)
      = (Ok diff, s2)
      ∧ ∀ fd, to_form_data_without_default 0%nat (Some 1%nat)
                (start Example.store false)
              = (Ok fd, start Example.store false)
              ↔ Forall2 encodes (deref (st_heap s2) diff) fd.
Proof.
  assert (H : NoDup (Object_keys (deref (st_heap (start Example.store false)) 0%nat))).
  { simpl. apply NoDup_cons. split.
    - intros H. apply list_elem_of_singleton in H. discriminate H.
    - apply NoDup_cons. split; [apply not_elem_of_nil | apply NoDup_nil_2]. }
  split; [exact H |].
  destruct (proj1 payload_matches_the_diff (start Example.store false) 0%nat
              (Some 1%nat) H) as (diff & s2 & Hwd & Hfd & _).
  exists diff, s2. split; [exact Hwd | exact Hfd].
Defined.

(** ** The log of the shared stages *)

Lemma fired_app k evs1 evs2 : fired k (evs1 ++ evs2) = (fired k evs1 + fired k evs2)%nat.
Proof. unfold fired. by rewrite List.filter_app, length_app. Qed.

(** Unfolds the monad and splits on whatever the run branches on. *)
Ltac unfold_monad :=
  unfold read_opt in *;
  unfold bind, ret, lift, emit, call, setIsFailed, set_submitOk, set_response,
    get_submitOk, get_response, read, write, alloc, unawaited in *.

Ltac split_run :=
  repeat
    first
      [ progress simplify_eq/=
      | match goal with
        | H : context [match ?x with _ => _ end] |- _ => destruct x eqn:?
        | H : context [if ?x then _ else _] |- _ => destruct x eqn:?
        end ].

Ltac log_suffix :=
  solve [symmetry; apply app_nil_r | rewrite <- ?app_assoc; reflexivity].

Section StageFacts.
Variable destination : Destination.
Variable defaultValues : option loc.
Variable method : option string.
Variable transform : option (external loc loc).
Variable fetchOptions : option RequestInit.
Variable confirmation : option string.
Variable confirm : string -> bool.
Variable fetch : external (string * RequestInit) Response.

Lemma prelude_spec data event s r s1 :
  prelude transform confirmation confirm data event s = (r, s1) →
  isFailed s1 = isFailed s
  ∧ (∃ evs, log s1 = log s ++ evs
            ∧ ∀ k, prelude_kind k = false → fired k evs = 0%nat)
  ∧ (∀ td, r = Ok (Some td) → submitOk s1 = false ∧ response s1 = None).
Proof.
  unfold prelude. unfold_monad. intros H. split_run;
    (split; [reflexivity |]; split;
     [eexists; split; [simpl; log_suffix |];
      intros k Hk; destruct k; (discriminate Hk || reflexivity)
     | intros td' [=]; subst; simpl; done]).
Qed.

Lemma dispatch_spec td s1 r s2 :
  dispatch destination defaultValues method fetchOptions fetch td s1 = (r, s2) →
  isFailed s2 = isFailed s1
  ∧ (∃ evs, log s2 = log s1 ++ evs
            ∧ ∀ k, dispatch_kind k = false → fired k evs = 0%nat)
  ∧ (∀ e, r = Throw e → submitOk s2 = submitOk s1 ∧ response s2 = response s1).
Proof.
  unfold dispatch, to_form_data_without_default, without_defaults.
  unfold_monad. intros H. split_run;
    (split; [reflexivity |]; split;
     [eexists; split; [simpl; log_suffix |];
      intros k Hk; destruct k; (discriminate Hk || reflexivity)
     | intros e' [=]; subst; simpl; done]).
Qed.
Lemma dispatch_Ok td s1 s2 :
  dispatch destination defaultValues method fetchOptions fetch td s1
  = (Ok tt, s2) →
  response s1 = None →
  match destination with
  | Endpoint url =>
      ∃ fd r h2,
        to_form_data_without_default td defaultValues s1 = (Ok fd, s1)
        ∧ fetch (url, fetch_init method fetchOptions fd) (st_heap s1)
          = (Ok r, h2)
        ∧ response s2 = Some r
        ∧ submitOk s2 = ok r
        ∧ log s2 = log s1 ++ [EvFetch url (fetch_init method fetchOptions fd)]
  | Action f =>
      ∃ diff s1' h2,
        without_defaults td defaultValues s1 = (Ok diff, s1')
        ∧ f diff (st_heap s1') = (Ok (submitOk s2), h2)
        ∧ response s2 = None
        ∧ log s2 = log s1 ++ [EvDestination diff]
  end.
Proof.
  unfold dispatch. intros H Hresp. destruct destination as [url|f].
  - unfold bind at 1 in H.
    destruct (to_form_data_without_default td defaultValues s1)
      as [[fd|e] s1'] eqn:Efd; [| discriminate H].
    assert (s1' = s1) as ->.
    { revert Efd. unfold to_form_data_without_default. unfold_monad.
      destruct defaultValues; simpl; intros [= _ <-]; done. }
    unfold_monad.
    destruct (fetch (url, fetch_init method fetchOptions fd) (st_heap s1))
      as [[r|e] h2] eqn:Ef; simpl in H; [| discriminate H].
    injection H as <-. simpl. eauto 10.
  - unfold bind at 1 in H.
    destruct (without_defaults td defaultValues s1) as [[diff|e] s1'] eqn:Ewd;
      [| discriminate H].
    assert (response s1' = response s1 ∧ log s1' = log s1) as [Hr Hl].
    { revert Ewd. unfold without_defaults. unfold_monad.
      destruct defaultValues; simpl; intros [= _ <-]; done. }
    unfold_monad.
    destruct (f diff (st_heap s1')) as [[b|e] h2] eqn:Ef; simpl in H;
      [| discriminate H].
    injection H as <-. simpl. rewrite Hr, Hl. eauto 10.
Qed.
End StageFacts.

(** ** The confirmation gate *)

(** C4. When a confirmation message is set and the user declines the prompt,
    the call ends there: the flag keeps its value, the log holds nothing but
    the calls of the prelude (no fetch, no destination, no callback, no
    mutate), the store is as the transform left it (no diff record was
    made), the prompt is the last call, and the promise resolves unless the
    transform itself threw. An empty message is no message: no prompt is
    shown for it. *)
Theorem declined_confirmation_aborts :
  ∀ destination params confirm fetch data event h failed message,
    Submitter.confirmation params = Some message →
    message ≠ ""%string →
    confirm message = false →
    let run :=
      Submitter.submitter destination params confirm fetch data event
        (start h failed) in
    let transformed :=
      match Submitter.transform params with
      | Some f => f data h
      | None => (Ok data, h)
      end in
    isFailed (snd run) = failed
    ∧ (∀ k, prelude_kind k = false → fired k (log (snd run)) = 0%nat)
    ∧ st_heap (snd run) = snd transformed
    ∧ fst run = match fst transformed with
                | Ok _ => Ok tt
                | Throw e => Throw e
                end
    ∧ (is_ok (fst run) = true →
       ∃ before, log (snd run) = before ++ [EvConfirm message false]).
Proof.
  intros destination params confirm fetch data event h failed message
    Hmsg Hne Hans run transformed.
  subst run transformed. unfold Submitter.submitter, prelude. rewrite Hmsg.
  apply String.eqb_neq in Hne. rewrite Hne, Hans. unfold_monad.
  destruct event, (Submitter.transform params) as [f|]; simpl;
    try destruct (f data h) as [[td|e] h1]; simpl;
    (split; [reflexivity |]; split;
     [intros k Hk; destruct k; (discriminate Hk || reflexivity) |];
     split; [reflexivity |]; split; [reflexivity |];
     intros Hok; try discriminate Hok;
     first [by exists [] | by eexists [_] | by eexists [_; _]]).
Qed.

Lemma declined_confirmation_aborts_witness :
  Submitter.confirmation Example.all_callbacks = Some "Are you sure?"%string
  ∧ "Are you sure?"%string ≠ ""%string
  ∧ Example.decline "Are you sure?" = false
  ∧ isFailed
      (snd (Submitter.submitter (Endpoint Example.url) Example.all_callbacks
              Example.decline Example.fetch_200 0%nat None
              (start Example.store true))) = true.
Proof.
  assert (Hne : "Are you sure?"%string ≠ ""%string) by discriminate.
  split; [reflexivity |]. split; [exact Hne |]. split; [reflexivity |].
  exact (proj1 (declined_confirmation_aborts (Endpoint Example.url)
                  Example.all_callbacks Example.decline Example.fetch_200
                  0%nat None Example.store true "Are you sure?"%string
                  eq_refl Hne eq_refl)).
Defined.

(** ** Routing the outcome *)

(** Counts calls in a log that ends a call of the hook: the prelude and the
    dispatch contribute nothing outside their own kinds. *)
Ltac count_fired Hpre Hdisp :=
  repeat rewrite fired_app;
  rewrite ?(Hpre KOnSuccess eq_refl), ?(Hpre KOnFailure eq_refl),
    ?(Hpre KOnError eq_refl), ?(Hpre KMutate eq_refl), ?(Hpre KReset eq_refl),
    ?(Hpre KFetch eq_refl), ?(Hpre KDestination eq_refl),
    ?(Hdisp KOnSuccess eq_refl), ?(Hdisp KOnFailure eq_refl),
    ?(Hdisp KOnError eq_refl), ?(Hdisp KMutate eq_refl),
    ?(Hdisp KReset eq_refl);
  try reflexivity.

Ltac settle Hpre Hdisp := solve [count_fired Hpre Hdisp; cbn; lia].

(** C5. When the dispatch completes and reports non-success, the flag is set,
    [onFailure] (when given) is called once, with the transformed data and
    the response held at that point (the one [fetch] returned, or none for a
    destination function), and neither [onSuccess] nor [mutate] is called. *)
Theorem non_success_sets_flag_and_calls_onFailure :
  ∀ destination params confirm fetch data event h failed td s1 s2,
    prelude (Submitter.transform params) (Submitter.confirmation params)
      confirm data event (start h failed) = (Ok (Some td), s1) →
    dispatch destination (Submitter.defaultValues params)
      (Submitter.method params) (Submitter.fetchOptions params) fetch td s1
    = (Ok tt, s2) →
    submitOk s2 = false →
    let run :=
      Submitter.submitter destination params confirm fetch data event
        (start h failed) in
    isFailed (snd run) = true
    ∧ fired KOnSuccess (log (snd run)) = 0%nat
    ∧ fired KMutate (log (snd run)) = 0%nat
    ∧ match Submitter.onFailure params with
      | Some _ =>
          fired KOnFailure (log (snd run)) = 1%nat
          ∧ EvOnFailure td (response s2) ∈ log (snd run)
      | None => fired KOnFailure (log (snd run)) = 0%nat
      end
    ∧ match destination with
      | Endpoint url =>
          ∃ init r h1 h2,
            fetch (url, init) h1 = (Ok r, h2) ∧ ok r = false
            ∧ response s2 = Some r
      | Action _ => response s2 = None
      end.
Proof.
  intros destination params confirm fetch data event h failed td s1 s2
    Hpre Hdisp Hok run. subst run.
  destruct (prelude_spec _ _ _ _ _ _ _ _ Hpre)
    as (_ & (evs1 & Hlog1 & Hk1) & Hloc).
  destruct (Hloc td eq_refl) as [Hok1 Hresp1].
  destruct (dispatch_spec _ _ _ _ _ _ _ _ _ Hdisp)
    as (_ & (evs2 & Hlog2 & Hk2) & _).
  simpl in Hlog1.
  assert (Hresp : match destination with
                  | Endpoint url =>
                      ∃ init r h1 h2,
                        fetch (url, init) h1 = (Ok r, h2) ∧ ok r = false
                        ∧ response s2 = Some r
                  | Action _ => response s2 = None
                  end).
  { pose proof (dispatch_Ok _ _ _ _ _ _ _ _ Hdisp Hresp1) as HOk.
    destruct destination as [url|f].
    - destruct HOk as (fd & r & h2 & _ & Hf & Hr & Hs & _).
      exists (fetch_init (Submitter.method params)
                (Submitter.fetchOptions params) fd), r, (st_heap s1), h2.
      split; [done |]. split; [congruence | done].
    - by destruct HOk as (diff & s1' & h2 & _ & _ & Hr & _). }
  unfold Submitter.submitter, bind. rewrite Hpre.
  unfold try_catch_finally, Submitter.try_block, bind. rewrite Hdisp.
  unfold Submitter.catch_block, Submitter.finally_block. unfold_monad.
  rewrite Hok.
  destruct (Submitter.onFailure params) as [f|]; simpl.
  - destruct (f (td, response s2) (st_heap s2)) as [[[]|e] h'] eqn:Ef; simpl.
    + rewrite Hok. simpl. rewrite Hlog2, Hlog1.
      repeat split; try count_fired Hk1 Hk2; [| done].
      apply elem_of_app. right. apply elem_of_cons. by left.
    + destruct (Submitter.onError params) as [g|]; simpl.
      * destruct (g e h') as [[[]|e'] h''] eqn:Eg; simpl; rewrite Hok; simpl;
          rewrite Hlog2, Hlog1;
          (repeat split; try count_fired Hk1 Hk2; [| done];
           apply elem_of_app; left; apply elem_of_app; right;
           apply elem_of_cons; by left).
      * rewrite Hok. simpl. rewrite Hlog2, Hlog1.
        repeat split; try count_fired Hk1 Hk2; [| done].
        apply elem_of_app. right. apply elem_of_cons. by left.
  - rewrite Hok. simpl. rewrite Hlog2, Hlog1.
    repeat split; try count_fired Hk1 Hk2. done.
Qed.

Lemma non_success_sets_flag_and_calls_onFailure_witness :
  ∃ s1 s2,
    prelude (Submitter.transform Example.all_callbacks)
      (Submitter.confirmation Example.all_callbacks) Example.accept 0%nat None
      (start Example.store false) = (Ok (Some 0%nat), s1)
    ∧ dispatch (Endpoint Example.url)
        (Submitter.defaultValues Example.all_callbacks)
        (Submitter.method Example.all_callbacks)
        (Submitter.fetchOptions Example.all_callbacks) Example.fetch_400
        0%nat s1 = (Ok tt, s2)
    ∧ submitOk s2 = false
    ∧ isFailed
        (snd (Submitter.submitter (Endpoint Example.url) Example.all_callbacks
                Example.accept Example.fetch_400 0%nat None
                (start Example.store false))) = true.
Proof.
  set (s1 := snd (prelude (Submitter.transform Example.all_callbacks)
                    (Submitter.confirmation Example.all_callbacks)
                    Example.accept 0%nat None (start Example.store false))).
  set (s2 := snd (dispatch (Endpoint Example.url)
                    (Submitter.defaultValues Example.all_callbacks)
                    (Submitter.method Example.all_callbacks)
                    (Submitter.fetchOptions Example.all_callbacks)
                    Example.fetch_400 0%nat s1)).
  assert (H1 : prelude (Submitter.transform Example.all_callbacks)
                 (Submitter.confirmation Example.all_callbacks)
                 Example.accept 0%nat None (start Example.store false)
               = (Ok (Some 0%nat), s1)) by reflexivity.
  assert (H2 : dispatch (Endpoint Example.url)
                 (Submitter.defaultValues Example.all_callbacks)
                 (Submitter.method Example.all_callbacks)
                 (Submitter.fetchOptions Example.all_callbacks)
                 Example.fetch_400 0%nat s1 = (Ok tt, s2)) by reflexivity.
  assert (H3 : submitOk s2 = false) by reflexivity.
  exists s1, s2. split; [exact H1 |]. split; [exact H2 |]. split; [exact H3 |].
  exact (proj1 (non_success_sets_flag_and_calls_onFailure (Endpoint Example.url)
                  Example.all_callbacks Example.accept Example.fetch_400
                  0%nat None Example.store false 0%nat s1 s2 H1 H2 H3)).
Defined.

(** C9. In both variants, when the dispatch (diffing, encoding, [fetch] or the
    destination function) throws, the flag is set, the error callback (when
    given) is called once with what was thrown, as the last call of the hook
    or just before the variant's [reset], and no failure, success or mutate
    callback is called. *)
Theorem caught_exception_sets_flag_and_calls_only_onError :
  (∀ destination params confirm fetch data event h failed td s1 e s2,
     prelude (Submitter.transform params) (Submitter.confirmation params)
       confirm data event (start h failed) = (Ok (Some td), s1) →
     dispatch destination (Submitter.defaultValues params)
       (Submitter.method params) (Submitter.fetchOptions params) fetch td s1
     = (Throw e, s2) →
     let run :=
       Submitter.submitter destination params confirm fetch data event
         (start h failed) in
     isFailed (snd run) = true
     ∧ fired KOnFailure (log (snd run)) = 0%nat
     ∧ fired KOnSuccess (log (snd run)) = 0%nat
     ∧ fired KMutate (log (snd run)) = 0%nat
     ∧ match Submitter.onError params with
       | Some _ =>
           fired KOnError (log (snd run)) = 1%nat
           ∧ log (snd run) = log s2 ++ [EvOnError e]
       | None => fired KOnError (log (snd run)) = 0%nat
       end)
  ∧ (∀ destination params confirm fetch data event h failed td s1 e s2,
       prelude (ResetSubmitter.transform params)
         (ResetSubmitter.confirmation params) confirm data event
         (start h failed) = (Ok (Some td), s1) →
       dispatch destination (ResetSubmitter.default_values params)
         (ResetSubmitter.method params) (ResetSubmitter.fetch_options params)
         fetch td s1 = (Throw e, s2) →
       let run :=
         ResetSubmitter.submitter destination params confirm fetch data event
           (start h failed) in
       isFailed (snd run) = true
       ∧ fired KOnFailure (log (snd run)) = 0%nat
       ∧ fired KOnSuccess (log (snd run)) = 0%nat
       ∧ fired KMutate (log (snd run)) = 0%nat
       ∧ match ResetSubmitter.on_error params with
         | Some _ =>
             fired KOnError (log (snd run)) = 1%nat
             ∧ ∃ after, log (snd run) = log s2 ++ EvOnError e :: after
                        ∧ fired KReset after = length after
         | None => fired KOnError (log (snd run)) = 0%nat
         end).
Proof.
  split.
  - intros destination params confirm fetch data event h failed td s1 e s2
      Hpre Hdisp run. subst run.
    destruct (prelude_spec _ _ _ _ _ _ _ _ Hpre)
      as (_ & (evs1 & Hlog1 & Hk1) & Hloc).
    destruct (Hloc td eq_refl) as [Hok1 _].
    destruct (dispatch_spec _ _ _ _ _ _ _ _ _ Hdisp)
      as (_ & (evs2 & Hlog2 & Hk2) & Hthrow).
    destruct (Hthrow e eq_refl) as [Hok2 _]. rewrite Hok1 in Hok2.
    simpl in Hlog1.
    unfold Submitter.submitter, bind. rewrite Hpre.
    unfold try_catch_finally, Submitter.try_block, bind. rewrite Hdisp.
    unfold Submitter.catch_block, Submitter.finally_block. unfold_monad.
    destruct (Submitter.onError params) as [g|]; simpl.
    + destruct (g e (st_heap s2)) as [[[]|e'] h'] eqn:Eg; simpl;
        rewrite Hok2; simpl; rewrite Hlog2, Hlog1;
        repeat split; count_fired Hk1 Hk2.
    + rewrite Hok2. simpl. rewrite Hlog2, Hlog1.
      repeat split; count_fired Hk1 Hk2.
  - intros destination params confirm fetch data event h failed td s1 e s2
      Hpre Hdisp run. subst run.
    destruct (prelude_spec _ _ _ _ _ _ _ _ Hpre)
      as (_ & (evs1 & Hlog1 & Hk1) & Hloc).
    destruct (Hloc td eq_refl) as [Hok1 _].
    destruct (dispatch_spec _ _ _ _ _ _ _ _ _ Hdisp)
      as (_ & (evs2 & Hlog2 & Hk2) & Hthrow).
    destruct (Hthrow e eq_refl) as [Hok2 _]. rewrite Hok1 in Hok2.
    simpl in Hlog1.
    unfold ResetSubmitter.submitter, bind. rewrite Hpre.
    unfold try_catch_finally, ResetSubmitter.try_block. rewrite Hdisp.
    unfold ResetSubmitter.catch_block, ResetSubmitter.finally_block.
    unfold_monad.
    destruct (ResetSubmitter.on_error params) as [g|]; simpl.
    + destruct (g e (st_heap s2)) as [[[]|e'] h'] eqn:Eg; simpl;
        rewrite Hok2; simpl;
        (destruct (ResetSubmitter.reset params) as [f|]; simpl;
         [destruct (f (Some data) h') as [[[]|e''] h''] eqn:Ef |]; simpl;
         rewrite Hlog2, Hlog1;
         repeat split; try count_fired Hk1 Hk2;
         first [ by exists [EvReset (Some data)]; rewrite <- app_assoc
               | by exists []; rewrite <- ?app_assoc ]).
    + rewrite Hok2. simpl.
      destruct (ResetSubmitter.reset params) as [f|]; simpl;
        [destruct (f (Some data) (st_heap s2)) as [[[]|e''] h''] eqn:Ef |];
        simpl; rewrite Hlog2, Hlog1; repeat split; count_fired Hk1 Hk2.
Qed.

Lemma caught_exception_sets_flag_and_calls_only_onError_witness :
  ∃ s1 s2,
    prelude (Submitter.transform Example.all_callbacks)
      (Submitter.confirmation Example.all_callbacks) Example.accept 0%nat None
      (start Example.store false) = (Ok (Some 0%nat), s1)
    ∧ dispatch (Endpoint Example.url)
        (Submitter.defaultValues Example.all_callbacks)
        (Submitter.method Example.all_callbacks)
        (Submitter.fetchOptions Example.all_callbacks) Example.fetch_fails
        0%nat s1 = (Throw (TypeError "Failed to fetch"), s2)
    ∧ isFailed
        (snd (Submitter.submitter (Endpoint Example.url) Example.all_callbacks
                Example.accept Example.fetch_fails 0%nat None
                (start Example.store false))) = true.
Proof.
  set (s1 := snd (prelude (Submitter.transform Example.all_callbacks)
                    (Submitter.confirmation Example.all_callbacks)
                    Example.accept 0%nat None (start Example.store false))).
  set (s2 := snd (dispatch (Endpoint Example.url)
                    (Submitter.defaultValues Example.all_callbacks)
                    (Submitter.method Example.all_callbacks)
                    (Submitter.fetchOptions Example.all_callbacks)
                    Example.fetch_fails 0%nat s1)).
  assert (H1 : prelude (Submitter.transform Example.all_callbacks)
                 (Submitter.confirmation Example.all_callbacks)
                 Example.accept 0%nat None (start Example.store false)
               = (Ok (Some 0%nat), s1)) by reflexivity.
  assert (H2 : dispatch (Endpoint Example.url)
                 (Submitter.defaultValues Example.all_callbacks)
                 (Submitter.method Example.all_callbacks)
                 (Submitter.fetchOptions Example.all_callbacks)
                 Example.fetch_fails 0%nat s1
               = (Throw (TypeError "Failed to fetch"), s2)) by reflexivity.
  exists s1, s2. split; [exact H1 |]. split; [exact H2 |].
  exact (proj1 (proj1 caught_exception_sets_flag_and_calls_only_onError
                  (Endpoint Example.url) Example.all_callbacks Example.accept
                  Example.fetch_fails 0%nat None Example.store false 0%nat s1
                  (TypeError "Failed to fetch") s2 H1 H2)).
Defined.

(** ** The baseline refresh *)

Lemma get_prop_app_fresh (pre post : object) k :
  k ∉ Object_keys pre → get_prop (pre ++ post) k = get_prop post k.
Proof.
  intros H. unfold get_prop. rewrite own_prop_app.
  apply own_prop_None in H. by rewrite H.
Qed.

Lemma set_prop_app_fresh (pre post : object) k v :
  k ∉ Object_keys pre → set_prop (pre ++ post) k v = pre ++ set_prop post k v.
Proof.
  induction pre as [|[k' v'] pre IH]; simpl; [done |].
  rewrite not_elem_of_cons. intros [Hne H].
  destruct (String.eqb_spec k' k); [congruence |]. by rewrite IH.
Qed.

Lemma foldl_refresh_key submitted pre post :
  NoDup (Object_keys (pre ++ post)) →
  fold_left (refresh_key submitted) (Object_keys post) (pre ++ post)
  = pre ++ refreshed post submitted.
Proof.
  revert pre. induction post as [|[k v] post IH]; intros pre Hnd; [done |].
  assert (Hk : k ∉ Object_keys pre).
  { rewrite Object_keys_app in Hnd. apply NoDup_app in Hnd as (_ & H & _).
    intros Hin. apply (H k Hin). simpl. apply elem_of_cons. by left. }
  simpl. unfold refresh_key at 2.
  rewrite get_prop_app_fresh by done.
  unfold get_prop at 1. simpl. rewrite String.eqb_refl.
  set (v' := if is_nullish v || is_nullish (get_prop submitted k)
             then get_prop submitted k else v).
  assert (Hstep : (if is_nullish v || is_nullish (get_prop submitted k)
                   then set_prop (pre ++ (k, v) :: post) k (get_prop submitted k)
                   else pre ++ (k, v) :: post)
                  = (pre ++ [(k, v')]) ++ post).
  { subst v'. destruct (is_nullish v || is_nullish (get_prop submitted k)).
    - rewrite set_prop_app_fresh by done. simpl. rewrite String.eqb_refl.
      by rewrite <- app_assoc.
    - by rewrite <- app_assoc. }
  transitivity (fold_left (refresh_key submitted) (Object_keys post)
                  ((pre ++ [(k, v')]) ++ post)).
  { f_equal. exact Hstep. }
  rewrite IH.
  - by rewrite <- app_assoc.
  - rewrite <- app_assoc. simpl.
    rewrite !Object_keys_app in *. simpl in *. done.
Qed.

Lemma refreshed_self o : NoDup (Object_keys o) → refreshed o o = o.
Proof.
  intros Hnd. unfold refreshed.
  transitivity (map id o); [| apply map_id].
  apply map_ext_in. intros [k v] Hin. simpl.
  assert (get_prop o k = v) as ->.
  { unfold get_prop. by rewrite (elem_of_own_prop o k v Hnd)
      by (by apply list_elem_of_In). }
  by destruct (is_nullish v || is_nullish v).
Qed.

Lemma deref_insert_ne (h : heap) l l' o : l ≠ l' → deref (<[l:=o]> h) l' = deref h l'.
Proof. intros H. unfold deref. by rewrite list_lookup_insert_ne. Qed.

Lemma deref_insert_eq (h : heap) l o : (l < length h)%nat → deref (<[l:=o]> h) l = o.
Proof. intros H. unfold deref. by rewrite list_lookup_insert_eq. Qed.

Lemma insert_deref (h : heap) l : <[l:=deref h l]> h = h.
Proof.
  unfold deref. destruct (h !! l) as [o|] eqn:E.
  - by apply list_insert_id.
  - apply list_insert_ge. by apply lookup_ge_None.
Qed.

(** The loop, when the submitted record is another record than the
    defaults. *)
Lemma mutate_data_loop_other keys data d s :
  data ≠ d → (d < length (st_heap s))%nat →
  ResetSubmitter.mutate_data_loop keys data d s
  = (Ok tt,
     with_heap s
       (<[d:=fold_left (refresh_key (deref (st_heap s) data)) keys
               (deref (st_heap s) d)]> (st_heap s))).
Proof.
  intros Hne. revert s. induction keys as [|k keys IH]; intros s Hlt.
  - simpl. unfold ret, with_heap. rewrite insert_deref. by destruct s.
  - simpl. unfold_monad. simpl. fold (refresh_key (deref (st_heap s) data)).
    unfold refresh_key at 2.
    destruct (is_nullish (get_prop (deref (st_heap s) d) k)
              || is_nullish (get_prop (deref (st_heap s) data) k)); simpl.
    + rewrite IH by (simpl; by rewrite length_insert). simpl.
      unfold with_heap. simpl.
      rewrite deref_insert_ne by done. rewrite deref_insert_eq by done.
      by rewrite list_insert_insert_eq.
    + by rewrite IH.
Qed.

Lemma set_prop_get_prop (o : object) k :
  k ∈ Object_keys o → set_prop o k (get_prop o k) = o.
Proof.
  induction o as [|[k' v'] o IH]; simpl.
  - intros H. by apply elem_of_nil in H.
  - rewrite elem_of_cons. unfold get_prop. simpl.
    destruct (String.eqb_spec k' k) as [->|Hne]; [done |].
    intros [?|Hin]; [congruence |]. f_equal. by apply IH.
Qed.

Lemma with_heap_same s : with_heap s (st_heap s) = s.
Proof. by destruct s. Qed.

(** The loop, when the submitted record is the defaults record itself. *)
Lemma mutate_data_loop_self keys d s :
  (∀ k, k ∈ keys → k ∈ Object_keys (deref (st_heap s) d)) →
  ResetSubmitter.mutate_data_loop keys d d s = (Ok tt, s).
Proof.
  induction keys as [|k keys IH]; intros Hkeys; [done |].
  simpl. unfold_monad. simpl.
  assert (Hk : k ∈ Object_keys (deref (st_heap s) d))
    by (apply Hkeys, elem_of_cons; by left).
  assert (Hrest : ∀ k', k' ∈ keys → k' ∈ Object_keys (deref (st_heap s) d))
    by (intros k' Hk'; apply Hkeys, elem_of_cons; by right).
  destruct (is_nullish (get_prop (deref (st_heap s) d) k)
            || is_nullish (get_prop (deref (st_heap s) d) k)); simpl.
  - rewrite set_prop_get_prop, insert_deref by done.
    fold (with_heap s (st_heap s)). rewrite with_heap_same. by apply IH.
  - by apply IH.
Qed.

(** Whatever the records, the loop touches the store only. *)
Lemma mutate_data_loop_frame keys data d s :
  ∃ h', ResetSubmitter.mutate_data_loop keys data d s = (Ok tt, with_heap s h').
Proof.
  revert s. induction keys as [|k keys IH]; intros s.
  - exists (st_heap s). simpl. unfold ret. by rewrite with_heap_same.
  - simpl. unfold_monad. simpl.
    destruct (is_nullish (get_prop (deref (st_heap s) d) k)
              || is_nullish (get_prop (deref (st_heap s) data) k)); simpl.
    + match goal with
      | |- context [ResetSubmitter.mutate_data_loop keys data d ?s'] =>
          destruct (IH s') as [h' ->]
      end.
      by exists h'.
    + apply IH.
Qed.

Lemma mutate_data_log f td dv s :
  ∃ r h',
    ResetSubmitter.mutate_data f td dv s
    = (r, mkState h' (isFailed s) (submitOk s) (response s)
            (log s ++ [EvMutate (match dv with Some d => d | None => td end)])).
Proof.
  unfold ResetSubmitter.mutate_data. destruct dv as [d|].
  - unfold bind at 1. unfold read at 1. unfold bind at 1.
    destruct (mutate_data_loop_frame (Object_keys (deref (st_heap s) d)) td d s)
      as [h' ->].
    unfold call. simpl. destruct (f d h') as [r h'']. by exists r, h''.
  - unfold call. destruct (f td (st_heap s)) as [r h']. by exists r, h'.
Qed.

Lemma get_prop_refreshed defaults submitted k old :
  own_prop defaults k = Some old →
  get_prop (refreshed defaults submitted) k
  = if is_nullish old || is_nullish (get_prop submitted k)
    then get_prop submitted k
    else old.
Proof.
  unfold get_prop at 1.
  induction defaults as [|[k' v'] defaults IH]; simpl; [done |].
  destruct (String.eqb_spec k' k) as [->|Hne]; [by intros [= ->] | done].
Qed.

Lemma map_fixed {A} (f : A → A) (l : list A) x :
  map f l = l → x ∈ l → f x = x.
Proof.
  induction l as [|y l IH]; simpl; intros H Hin.
  - by apply elem_of_nil in Hin.
  - injection H as Hy Hl. apply elem_of_cons in Hin as [->|Hin]; auto.
Qed.

(** C10. With default values, [mutate_data] is the call of [mutate] on the
    reference of the default values itself, in a store where that record has
    been overwritten: each of its keys holds the submitted value (possibly
    [undefined]) where the old or the submitted value is [undefined] or
    [null], and its old value elsewhere. Whenever such a key gets a value
    other than the one it had, the caller's defaults are no longer what they
    were. In a successful call of the variant with default values and a
    [mutate] callback, [mutate] is called once, with that reference. *)
Theorem mutate_data_overwrites_the_defaults_in_place :
  (∀ (mutate : external loc unit) (data d : loc) (s : state),
     NoDup (Object_keys (deref (st_heap s) d)) →
     let base := deref (st_heap s) d in
     let submitted := deref (st_heap s) data in
     let store := <[d:=refreshed base submitted]> (st_heap s) in
     ResetSubmitter.mutate_data mutate data (Some d) s
     = call (EvMutate d) mutate d (with_heap s store)
     ∧ ((d < length (st_heap s))%nat →
        deref store d = refreshed base submitted)
     ∧ (∀ k old, own_prop base k = Some old →
          get_prop (refreshed base submitted) k
          = if is_nullish old || is_nullish (get_prop submitted k)
            then get_prop submitted k
            else old)
     ∧ ((∃ k old, (k, old) ∈ base
                  ∧ is_nullish old || is_nullish (get_prop submitted k) = true
                  ∧ get_prop submitted k ≠ old) →
        refreshed base submitted ≠ base))
  ∧ (∀ destination params confirm fetch data event h failed td s1 s2 d f,
       prelude (ResetSubmitter.transform params)
         (ResetSubmitter.confirmation params) confirm data event
         (start h failed) = (Ok (Some td), s1) →
       dispatch destination (ResetSubmitter.default_values params)
         (ResetSubmitter.method params) (ResetSubmitter.fetch_options params)
         fetch td s1 = (Ok tt, s2) →
       submitOk s2 = true →
       ResetSubmitter.default_values params = Some d →
       ResetSubmitter.mutate params = Some f →
       never_throws_opt (ResetSubmitter.reset params) →
       never_throws_opt (ResetSubmitter.on_success params) →
       let run :=
         ResetSubmitter.submitter destination params confirm fetch data event
           (start h failed) in
       isFailed (snd run) = false
       ∧ fired KMutate (log (snd run)) = 1%nat
       ∧ EvMutate d ∈ log (snd run)).
Proof.
  split.
  - intros mutate data d s Hnd base submitted store. split; [| split; [| split]].
    + unfold ResetSubmitter.mutate_data. unfold bind at 1. unfold read at 1.
      unfold bind. fold base.
      assert (Hloop : ResetSubmitter.mutate_data_loop (Object_keys base) data d s
                      = (Ok tt, with_heap s store)).
      { subst store. destruct (decide (d < length (st_heap s))%nat) as [Hlt|Hge].
        - destruct (decide (data = d)) as [->|Hne].
          + rewrite mutate_data_loop_self by done.
            subst submitted. fold base. rewrite refreshed_self by done.
            subst base. by rewrite insert_deref, with_heap_same.
          + rewrite mutate_data_loop_other by done. fold base submitted.
            pose proof (foldl_refresh_key submitted [] base Hnd) as Hfold.
            cbn [app] in Hfold. by rewrite Hfold.
        - assert (base = []) as Hbase.
          { subst base. unfold deref.
            rewrite (proj2 (lookup_ge_None (st_heap s) d)) by lia. done. }
          rewrite Hbase. simpl. rewrite list_insert_ge by lia.
          unfold ret. by rewrite with_heap_same. }
      by rewrite Hloop.
    + intros Hlt. subst store. by apply deref_insert_eq.
    + intros k old Hk. by apply get_prop_refreshed.
    + intros (k & old & Hin & Hnull & Hnew) Heq.
      pose proof (map_fixed _ _ (k, old) Heq Hin) as Hfix. simpl in Hfix.
      rewrite Hnull in Hfix. congruence.
  - intros destination params confirm fetch data event h failed td s1 s2 d f
      Hpre Hdisp Hok Hd Hf Hreset Hsucc run. subst run.
    destruct (prelude_spec _ _ _ _ _ _ _ _ Hpre)
      as (_ & (evs1 & Hlog1 & Hk1) & _).
    destruct (dispatch_spec _ _ _ _ _ _ _ _ _ Hdisp)
      as (_ & (evs2 & Hlog2 & Hk2) & _).
    simpl in Hlog1.
    unfold ResetSubmitter.submitter, bind. rewrite Hpre.
    unfold try_catch_finally, ResetSubmitter.try_block. rewrite Hdisp.
    unfold ResetSubmitter.finally_block. unfold_monad. rewrite Hok, Hf, Hd.
    simpl.
    destruct (ResetSubmitter.reset params) as [g|] eqn:Hg; simpl.
    + pose proof (Hreset g eq_refl None (st_heap s2)) as Hg_ok.
      destruct (g None (st_heap s2)) as [[[]|?] h1]; [| discriminate Hg_ok].
      simpl.
      destruct (ResetSubmitter.on_success params) as [k|] eqn:Hk; simpl.
      * pose proof (Hsucc k eq_refl (td, response s2) h1) as Hk_ok.
        destruct (k (td, response s2) h1) as [[[]|?] h2];
          [| discriminate Hk_ok].
        simpl.
        match goal with
        | |- context [ResetSubmitter.mutate_data ?m ?t ?dv ?s] =>
            destruct (mutate_data_log m t dv s) as (r & h' & ->)
        end.
        simpl. rewrite Hlog2, Hlog1. repeat split; try settle Hk1 Hk2.
        apply elem_of_app. right. apply elem_of_cons. by left.
      * match goal with
        | |- context [ResetSubmitter.mutate_data ?m ?t ?dv ?s] =>
            destruct (mutate_data_log m t dv s) as (r & h' & ->)
        end.
        simpl. rewrite Hlog2, Hlog1. repeat split; try settle Hk1 Hk2.
        apply elem_of_app. right. apply elem_of_cons. by left.
    + destruct (ResetSubmitter.on_success params) as [k|] eqn:Hk; simpl.
      * pose proof (Hsucc k eq_refl (td, response s2) (st_heap s2)) as Hk_ok.
        destruct (k (td, response s2) (st_heap s2)) as [[[]|?] h2];
          [| discriminate Hk_ok].
        simpl.
        match goal with
        | |- context [ResetSubmitter.mutate_data ?m ?t ?dv ?s] =>
            destruct (mutate_data_log m t dv s) as (r & h' & ->)
        end.
        simpl. rewrite Hlog2, Hlog1. repeat split; try settle Hk1 Hk2.
        apply elem_of_app. right. apply elem_of_cons. by left.
      * match goal with
        | |- context [ResetSubmitter.mutate_data ?m ?t ?dv ?s] =>
            destruct (mutate_data_log m t dv s) as (r & h' & ->)
        end.
        simpl. rewrite Hlog2, Hlog1. repeat split; try settle Hk1 Hk2.
        apply elem_of_app. right. apply elem_of_cons. by left.
Qed.

Lemma mutate_data_overwrites_the_defaults_in_place_witness :
  NoDup (Object_keys (deref (st_heap (start Example.store_blank false)) 1%nat))
  ∧ ResetSubmitter.mutate_data Example.returns 0%nat (Some 1%nat)
      (start Example.store_blank false)
    = call (EvMutate 1%nat) Example.returns 1%nat
        (with_heap (start Example.store_blank false)
           (<[1%nat:=refreshed Example.defaults_blank Example.data_nick]>
              Example.store_blank)).
Proof.
  assert (H : NoDup (Object_keys
                       (deref (st_heap (start Example.store_blank false)) 1%nat))).
  { simpl. apply NoDup_cons. split.
    - intros H. apply list_elem_of_singleton in H. discriminate H.
    - apply NoDup_cons. split; [apply not_elem_of_nil | apply NoDup_nil_2]. }
  split; [exact H |].
  exact (proj1 (proj1 mutate_data_overwrites_the_defaults_in_place
                  Example.returns 0%nat 1%nat
                  (start Example.store_blank false) H)).
Defined.

(** C7, on the code. Without default values [mutate] gets the transformed
    data. With default values name "Nir", age 30 and a submission of name
    "Nir", age 31, [mutate] gets the defaults record still holding age 30,
    where the merge rule of the specification gives 31; and with a submission
    that has no name, it gets a record whose name is [undefined], where the
    rule keeps "Nir". *)
Theorem mutate_data_keeps_stale_defaults :
  (∀ f td s, ResetSubmitter.mutate_data f td None s = call (EvMutate td) f td s)
  ∧ (let run :=
       ResetSubmitter.mutate_data Example.returns 0%nat (Some 1%nat)
         (start Example.store false) in
     log (snd run) = [EvMutate 1%nat]
     ∧ get_prop (deref (st_heap (snd run)) 1%nat) "age" = VNumber (Num 30)
     ∧ get_prop (spec_merged Example.defaults Example.data) "age"
       = VNumber (Num 31))
  ∧ (let run :=
       ResetSubmitter.mutate_data Example.returns 0%nat (Some 1%nat)
         (start Example.store_age_only false) in
     log (snd run) = [EvMutate 1%nat]
     ∧ get_prop (deref (st_heap (snd run)) 1%nat) "name" = VUndefined
     ∧ get_prop (spec_merged Example.defaults Example.data_age_only) "name"
       = VString "Nir").
Proof.
  split; [reflexivity |]. split; vm_compute; repeat split; reflexivity.
Qed.

(** ** One outcome per call *)

(** The claim C3 as it is written: at most one of the three callbacks. *)
Lemma onFailure_and_onError_in_one_call :
  let evs :=
    log (snd (Submitter.submitter (Action Example.action_false)
                Example.throwing_onFailure Example.accept Example.fetch_200
                0%nat None (start Example.store false))) in
  fired KOnFailure evs = 1%nat
  ∧ fired KOnError evs = 1%nat
  ∧ ¬ (fired KOnSuccess evs + fired KOnFailure evs + fired KOnError evs ≤ 1)%nat.
Proof.
  vm_compute. split; [reflexivity |]. split; [reflexivity |]. lia.
Qed.

(** C3, amended. A call never has [onSuccess] together with [onFailure] or
    [onError], and it has at most one of the three, with one exception: an
    [onFailure] that throws sits inside the [try] block, so what it throws is
    given to [onError] in the same call. The variant has no failure callback
    and at most one of its two. *)
Theorem at_most_one_outcome_unless_onFailure_throws :
  (∀ destination params confirm fetch data event h failed,
     let evs :=
       log (snd (Submitter.submitter destination params confirm fetch data
                   event (start h failed))) in
     (fired KOnSuccess evs + fired KOnFailure evs + fired KOnError evs ≤ 1)%nat
     ∨ (fired KOnSuccess evs = 0%nat
        ∧ fired KOnFailure evs = 1%nat
        ∧ fired KOnError evs = 1%nat
        ∧ ∃ f arg h1 e,
            Submitter.onFailure params = Some f
            ∧ fst (f arg h1) = Throw e
            ∧ EvOnError e ∈ evs))
  ∧ (∀ destination params confirm fetch data event h failed,
       let evs :=
         log (snd (ResetSubmitter.submitter destination params confirm fetch
                     data event (start h failed))) in
       fired KOnFailure evs = 0%nat
       ∧ (fired KOnSuccess evs + fired KOnError evs ≤ 1)%nat).
Proof.
  split.
  - intros destination params confirm fetch data event h failed evs.
    subst evs. unfold Submitter.submitter, bind.
    destruct (prelude _ _ _ _ _ _) as [[[td|]|e0] s1] eqn:Hpre;
      destruct (prelude_spec _ _ _ _ _ _ _ _ Hpre)
        as (_ & (evs1 & Hlog1 & Hk1) & Hloc); simpl in Hlog1.
    + destruct (Hloc td eq_refl) as [Hok1 _].
      unfold try_catch_finally, Submitter.try_block, bind.
      destruct (dispatch _ _ _ _ _ _ _) as [[[]|e] s2] eqn:Hdisp;
        destruct (dispatch_spec _ _ _ _ _ _ _ _ _ Hdisp)
          as (_ & (evs2 & Hlog2 & Hk2) & Hthrow).
      * unfold Submitter.catch_block, Submitter.finally_block. unfold_monad.
        destruct (submitOk s2) eqn:Hok2.
        -- left. destruct (Submitter.onFailure params); simpl; rewrite Hok2;
             simpl;
             (destruct (Submitter.onSuccess params) as [g|]; simpl;
              [destruct (g _ _) as [[[]|?] ?] |]; simpl;
              try (destruct (Submitter.mutate params) as [m|]; simpl;
                   [destruct (m _ _) as [[[]|?] ?] |]; simpl);
              rewrite Hlog2, Hlog1; settle Hk1 Hk2).
        -- destruct (Submitter.onFailure params) as [f|] eqn:Hf; simpl.
           ++ destruct (f (td, response s2) (st_heap s2)) as [[[]|e] h']
                eqn:Ef; simpl.
              ** left. rewrite Hok2. simpl. rewrite Hlog2, Hlog1.
                 settle Hk1 Hk2.
              ** destruct (Submitter.onError params) as [g|]; simpl.
                 --- right.
                     assert (Hthrown : ∃ f0 arg h1 e1,
                               Some f = Some f0 ∧ fst (f0 arg h1) = Throw e1
                               ∧ e1 = e).
                     { exists f, (td, response s2), (st_heap s2), e.
                       by rewrite Ef. }
                     destruct Hthrown as (f0 & arg & h1 & e1 & ? & ? & ->).
                     destruct (g e h') as [[[]|?] ?]; simpl; rewrite Hok2;
                       simpl; rewrite Hlog2, Hlog1;
                       (repeat split; try count_fired Hk1 Hk2;
                        exists f0, arg, h1, e; repeat split; try done;
                        apply elem_of_app; right; apply elem_of_cons; by left).
                 --- left. rewrite Hok2. simpl. rewrite Hlog2, Hlog1.
                     settle Hk1 Hk2.
           ++ left. rewrite Hok2. simpl. rewrite Hlog2, Hlog1.
              settle Hk1 Hk2.
      * destruct (Hthrow e eq_refl) as [Hok2 _]. rewrite Hok1 in Hok2.
        left. unfold Submitter.catch_block, Submitter.finally_block.
        unfold_monad.
        destruct (Submitter.onError params) as [g|]; simpl;
          [destruct (g _ _) as [[[]|?] ?] |]; simpl; rewrite Hok2; simpl;
          rewrite Hlog2, Hlog1; settle Hk1 Hk2.
    + left. simpl. rewrite Hlog1. settle Hk1 Hk1.
    + left. simpl. rewrite Hlog1. settle Hk1 Hk1.
  - intros destination params confirm fetch data event h failed evs.
    subst evs. unfold ResetSubmitter.submitter, bind.
    destruct (prelude _ _ _ _ _ _) as [[[td|]|e0] s1] eqn:Hpre;
      destruct (prelude_spec _ _ _ _ _ _ _ _ Hpre)
        as (_ & (evs1 & Hlog1 & Hk1) & Hloc); simpl in Hlog1.
    + destruct (Hloc td eq_refl) as [Hok1 _].
      unfold try_catch_finally, ResetSubmitter.try_block.
      destruct (dispatch _ _ _ _ _ _ _) as [[[]|e] s2] eqn:Hdisp;
        destruct (dispatch_spec _ _ _ _ _ _ _ _ _ Hdisp)
          as (_ & (evs2 & Hlog2 & Hk2) & Hthrow).
      * unfold ResetSubmitter.finally_block. unfold_monad.
        destruct (submitOk s2) eqn:Hok2; simpl.
        -- destruct (ResetSubmitter.reset params) as [f|]; simpl;
             [destruct (f _ _) as [[[]|?] ?] |]; simpl;
             try (destruct (ResetSubmitter.on_success params) as [g|]; simpl;
                  [destruct (g _ _) as [[[]|?] ?] |]; simpl;
                  try (destruct (ResetSubmitter.mutate params) as [m|]; simpl;
                       [match goal with
                        | |- context [ResetSubmitter.mutate_data ?m ?t ?dv ?s] =>
                            destruct (mutate_data_log m t dv s)
                              as (r & h' & ->)
                        end |]; simpl));
             rewrite Hlog2, Hlog1; split; settle Hk1 Hk2.
        -- destruct (ResetSubmitter.reset params) as [f|]; simpl;
             [destruct (f _ _) as [[[]|?] ?] |]; simpl;
             rewrite Hlog2, Hlog1; split; settle Hk1 Hk2.
      * destruct (Hthrow e eq_refl) as [Hok2 _]. rewrite Hok1 in Hok2.
        unfold ResetSubmitter.catch_block, ResetSubmitter.finally_block.
        unfold_monad.
        destruct (ResetSubmitter.on_error params) as [g|]; simpl;
          [destruct (g _ _) as [[[]|?] ?] |]; simpl; rewrite Hok2; simpl;
          (destruct (ResetSubmitter.reset params) as [f|]; simpl;
           [destruct (f _ _) as [[[]|?] ?] |]; simpl;
           rewrite Hlog2, Hlog1; split; settle Hk1 Hk2).
    + simpl. rewrite Hlog1. split; settle Hk1 Hk1.
    + simpl. rewrite Hlog1. split; settle Hk1 Hk1.
Qed.

(** ** What reaches the caller *)

Lemma try_block_spec destination params fetch td s1 r s2 :
  Submitter.try_block destination params fetch td s1 = (r, s2) →
  submitOk s1 = false →
  (∃ evs, log s2 = log s1 ++ evs
          ∧ fired KOnError evs = 0%nat
          ∧ fired KOnSuccess evs = 0%nat
          ∧ fired KMutate evs = 0%nat)
  ∧ (∀ e, r = Throw e → submitOk s2 = false).
Proof.
  unfold Submitter.try_block, bind. intros H Hok1.
  destruct (dispatch _ _ _ _ _ _ _) as [[[]|e] s] eqn:Hdisp;
    destruct (dispatch_spec _ _ _ _ _ _ _ _ _ Hdisp)
      as (_ & (evs & Hlog & Hk) & Hthrow).
  - revert H. unfold_monad.
    destruct (Submitter.onFailure params) as [f|]; simpl.
    + destruct (submitOk s) eqn:Hok; simpl.
      * intros [= <- <-]. split; [| done]. exists evs.
        split; [done |]. by rewrite !Hk.
      * destruct (f _ _) as [r' h'] eqn:Ef. intros [= <- <-]. simpl.
        split; [| done]. exists (evs ++ [EvOnFailure td (response s)]).
        rewrite Hlog. split; [by rewrite <- app_assoc |].
        rewrite !fired_app, !Hk by done. done.
    + intros [= <- <-]. split; [| done]. exists evs.
      split; [done |]. by rewrite !Hk.
  - injection H as <- <-. destruct (Hthrow e eq_refl) as [Hok _].
    split; [| intros _ _; congruence]. exists evs.
    split; [done |]. by rewrite !Hk.
Qed.

Lemma prelude_returns transform confirmation confirm data event s :
  never_throws_opt transform →
  ∃ go s1, prelude transform confirmation confirm data event s = (Ok go, s1).
Proof.
  intros Htr. unfold prelude. unfold_monad.
  destruct event, transform as [f|]; simpl;
    try (pose proof (Htr f eq_refl data (st_heap s)) as Hf;
         destruct (f data (st_heap s)) as [[td|e] h1];
         [| discriminate Hf]; simpl);
    destruct confirmation as [message|]; simpl;
    try (destruct (negb (String.eqb message "")); simpl;
         try (destruct (negb (confirm message)); simpl));
    eauto.
Qed.

(** The claim C2 as it is written: the promise of this call rejects, and the
    error callback, although given, is not called. *)
Lemma throwing_transform_rejects :
  let run :=
    Submitter.submitter (Endpoint Example.url) Example.throwing_transform
      Example.accept Example.fetch_200 0%nat None
      (start Example.store false) in
  fst run = Throw (Thrown (VString "boom"))
  ∧ is_ok (fst run) = false
  ∧ Submitter.onError Example.throwing_transform ≠ None
  ∧ fired KOnError (log (snd run)) = 0%nat.
Proof.
  vm_compute. repeat split; (reflexivity || discriminate).
Qed.

(** C2, amended. The [try] block starts after the transform and the prompt,
    and nothing guards the error callback or the [finally] block. So: what
    the [try] block throws (diffing, encoding, [fetch], the destination, the
    failure callback) is caught and given to [onError], when there is one,
    as the last call of the hook; and the promise resolves whenever the
    transform and the callbacks [onError], [onSuccess] and [mutate] return
    normally. What the transform throws rejects the promise, and [onError]
    is not called. *)
Theorem submitter_resolves_when_transform_and_late_callbacks_return :
  (∀ destination params confirm fetch data event h failed,
     never_throws_opt (Submitter.transform params) →
     never_throws_opt (Submitter.onError params) →
     never_throws_opt (Submitter.onSuccess params) →
     never_throws_opt (Submitter.mutate params) →
     let run :=
       Submitter.submitter destination params confirm fetch data event
         (start h failed) in
     fst run = Ok tt
     ∧ ∀ td s1 e s2,
         prelude (Submitter.transform params) (Submitter.confirmation params)
           confirm data event (start h failed) = (Ok (Some td), s1) →
         Submitter.try_block destination params fetch td s1 = (Throw e, s2) →
         match Submitter.onError params with
         | Some _ =>
             fired KOnError (log (snd run)) = 1%nat
             ∧ log (snd run) = log s2 ++ [EvOnError e]
         | None => fired KOnError (log (snd run)) = 0%nat
         end)
  ∧ (∀ destination params confirm fetch data event h failed f e h1,
       Submitter.transform params = Some f →
       f data h = (Throw e, h1) →
       let run :=
         Submitter.submitter destination params confirm fetch data event
           (start h failed) in
       fst run = Throw e ∧ fired KOnError (log (snd run)) = 0%nat).
Proof.
  split.
  - intros destination params confirm fetch data event h failed
      Htr Herr Hsucc Hmut run. subst run.
    unfold Submitter.submitter, bind.
    destruct (prelude_returns _ (Submitter.confirmation params) confirm data
                event (start h failed) Htr) as (go & s1 & Hpre).
    rewrite Hpre.
    destruct (prelude_spec _ _ _ _ _ _ _ _ Hpre)
      as (_ & (evs1 & Hlog1 & Hk1) & Hloc). simpl in Hlog1.
    destruct go as [td|]; [| split; [done | intros ? ? ? ? [=]]].
    destruct (Hloc td eq_refl) as [Hok1 _].
    unfold try_catch_finally.
    destruct (Submitter.try_block destination params fetch td s1)
      as [[[]|e] s2] eqn:Htry;
      destruct (try_block_spec _ _ _ _ _ _ _ Htry Hok1)
        as ((evs2 & Hlog2 & Herr0 & _) & Hthrow).
    + split; [| intros ? ? ? ? [= <- <-] Ht; rewrite Htry in Ht; discriminate Ht].
      unfold Submitter.finally_block. unfold_monad.
      destruct (submitOk s2); simpl; [| done].
      destruct (Submitter.onSuccess params) as [g|] eqn:Hg; simpl.
      * pose proof (Hsucc g eq_refl (td, response s2) (st_heap s2)) as Hg_ok.
        destruct (g _ _) as [[[]|?] h1]; [| discriminate Hg_ok]. simpl.
        destruct (Submitter.mutate params) as [m|] eqn:Hm; simpl; [| done].
        pose proof (Hmut m eq_refl td h1) as Hm_ok.
        destruct (m _ _) as [[[]|?] h2]; [done | discriminate Hm_ok].
      * destruct (Submitter.mutate params) as [m|] eqn:Hm; simpl; [| done].
        pose proof (Hmut m eq_refl td (st_heap s2)) as Hm_ok.
        destruct (m _ _) as [[[]|?] h2]; [done | discriminate Hm_ok].
    + pose proof (Hthrow e eq_refl) as Hok2.
      unfold Submitter.catch_block, Submitter.finally_block. unfold_monad.
      destruct (Submitter.onError params) as [g|] eqn:Hg; simpl.
      * pose proof (Herr g eq_refl e (st_heap s2)) as Hg_ok.
        destruct (g _ _) as [[[]|?] h1]; [| discriminate Hg_ok]. simpl.
        rewrite Hok2. simpl. split; [done |].
        intros ? ? ? ? [= <- <-] Ht. rewrite Htry in Ht.
        injection Ht as <- <-. split; [| done].
        rewrite Hlog2, Hlog1, !fired_app, Herr0, (Hk1 KOnError eq_refl).
        reflexivity.
      * rewrite Hok2. simpl. split; [done |].
        intros ? ? ? ? [= <- <-] Ht. rewrite Htry in Ht.
        injection Ht as <- <-.
        rewrite Hlog2, Hlog1, !fired_app, Herr0, (Hk1 KOnError eq_refl).
        reflexivity.
  - intros destination params confirm fetch data event h failed f e h1
      Hf He run. subst run.
    unfold Submitter.submitter, prelude. rewrite Hf. unfold_monad.
    destruct event; simpl; rewrite He; simpl; split; reflexivity.
Qed.

Lemma submitter_resolves_when_transform_and_late_callbacks_return_witness :
  never_throws_opt (Submitter.transform Example.all_callbacks)
  ∧ never_throws_opt (Submitter.onError Example.all_callbacks)
  ∧ never_throws_opt (Submitter.onSuccess Example.all_callbacks)
  ∧ never_throws_opt (Submitter.mutate Example.all_callbacks)
  ∧ fst (Submitter.submitter (Endpoint Example.url) Example.all_callbacks
           Example.accept Example.fetch_fails 0%nat None
           (start Example.store false)) = Ok tt.
Proof.
  assert (H1 : never_throws_opt (Submitter.transform Example.all_callbacks))
    by (intros g Hg; discriminate Hg).
  assert (H2 : never_throws_opt (Submitter.onError Example.all_callbacks))
    by (intros g Hg; injection Hg as <-; intros a h; reflexivity).
  assert (H3 : never_throws_opt (Submitter.onSuccess Example.all_callbacks))
    by (intros g Hg; injection Hg as <-; intros a h; reflexivity).
  assert (H4 : never_throws_opt (Submitter.mutate Example.all_callbacks))
    by (intros g Hg; injection Hg as <-; intros a h; reflexivity).
  split; [exact H1 |]. split; [exact H2 |]. split; [exact H3 |].
  split; [exact H4 |].
  exact (proj1 (proj1 submitter_resolves_when_transform_and_late_callbacks_return
                  (Endpoint Example.url) Example.all_callbacks Example.accept
                  Example.fetch_fails 0%nat None Example.store false
                  H1 H2 H3 H4)).
Defined.

(** ** The request *)

Section SpreadFacts.
Context {V : Type}.
Implicit Types (o base extra : list (string * V)) (k : string) (v : V).

Lemma own_prop_set_prop o k v k' :
  own_prop (set_prop o k v) k'
  = if String.eqb k k' then Some v else own_prop o k'.
Proof.
  induction o as [|[k0 v0] o IH]; simpl.
  - done.
  - destruct (String.eqb_spec k0 k) as [->|Hne]; simpl.
    + by destruct (String.eqb k k').
    + rewrite IH. destruct (String.eqb_spec k0 k') as [->|Hne'].
      * destruct (String.eqb_spec k k'); [congruence | done].
      * done.
Qed.

(** What the spread does not name stays as it was. *)
Lemma own_prop_spread_None base extra k :
  own_prop extra k = None → own_prop (spread base extra) k = own_prop base k.
Proof.
  unfold spread. revert base.
  induction extra as [|[k0 v0] extra IH]; intros base; simpl; [done |].
  destruct (String.eqb_spec k0 k) as [->|Hne]; [done |].
  intros H. rewrite IH by done. rewrite own_prop_set_prop.
  destruct (String.eqb_spec k0 k); [congruence | done].
Qed.

(** What the spread names wins. *)
Lemma own_prop_spread_Some base extra k v :
  NoDup (Object_keys extra) → own_prop extra k = Some v →
  own_prop (spread base extra) k = Some v.
Proof.
  unfold spread. revert base.
  induction extra as [|[k0 v0] extra IH]; intros base; simpl; [done |].
  rewrite NoDup_cons. intros [Hk0 Hnd].
  destruct (String.eqb_spec k0 k) as [->|Hne].
  - intros [= ->]. apply own_prop_None in Hk0.
    pose proof (own_prop_spread_None (set_prop base k v) extra k Hk0) as H.
    unfold spread in H. rewrite H, own_prop_set_prop.
    by rewrite String.eqb_refl.
  - by apply IH.
Qed.
End SpreadFacts.

(** The claim C6 as it is written: no [method] option is given, yet the
    request does not go out as a POST. *)
Lemma fetchOptions_override_the_method :
  let run :=
    Submitter.submitter (Endpoint Example.url) Example.put_options
      Example.accept Example.fetch_200 0%nat None
      (start Example.store false) in
  Submitter.method Example.put_options = None
  ∧ ∃ init after,
      log (snd run) = EvFetch Example.url init :: after
      ∧ fired KFetch (log (snd run)) = 1%nat
      ∧ own_prop init "method" = Some (IString "PUT")
      ∧ own_prop init "method" ≠ Some (IString "POST").
Proof.
  split; [reflexivity |]. eexists _, _.
  split; [vm_compute; reflexivity |].
  split; [vm_compute; reflexivity |].
  split; [vm_compute; reflexivity | vm_compute; discriminate].
Qed.

(** C6, amended. An endpoint call that gets past the prelude and whose
    payload can be encoded calls [fetch] exactly once, first thing after the
    prelude, with the options [{ method, body, ...fetchOptions }]: the method
    is the [method] option, or "POST" without one, and the body is the
    encoded payload, unless [fetchOptions] names a method or a body of its
    own, which then wins, as does everything else it names. When the response
    is ok, the flag is cleared and [onSuccess], when given, is called once,
    with the transformed data and that response. *)
Theorem endpoint_call_fetches_once :
  ∀ url params confirm fetch data event h failed td s1 fd,
    let opts :=
      match Submitter.fetchOptions params with
      | Some o => o
      | None => []
      end in
    let init :=
      fetch_init (Submitter.method params) (Submitter.fetchOptions params) fd in
    let run :=
      Submitter.submitter (Endpoint url) params confirm fetch data event
        (start h failed) in
    prelude (Submitter.transform params) (Submitter.confirmation params)
      confirm data event (start h failed) = (Ok (Some td), s1) →
    to_form_data_without_default td (Submitter.defaultValues params) s1
    = (Ok fd, s1) →
    NoDup (Object_keys opts) →
    fired KFetch (log (snd run)) = 1%nat
    ∧ (∃ after, log (snd run) = log s1 ++ EvFetch url init :: after)
    ∧ (own_prop opts "method" = None →
       own_prop init "method"
       = Some (IString (match Submitter.method params with
                        | Some m => m
                        | None => "POST"%string
                        end)))
    ∧ (own_prop opts "body" = None →
       own_prop init "body" = Some (IFormData fd))
    ∧ (∀ k v, own_prop opts k = Some v → own_prop init k = Some v)
    ∧ (∀ r h2,
         fetch (url, init) (st_heap s1) = (Ok r, h2) → ok r = true →
         isFailed (snd run) = false
         ∧ match Submitter.onSuccess params with
           | Some _ =>
               fired KOnSuccess (log (snd run)) = 1%nat
               ∧ EvOnSuccess td (Some r) ∈ log (snd run)
           | None => fired KOnSuccess (log (snd run)) = 0%nat
           end).
Proof.
  intros url params confirm fetch data event h failed td s1 fd opts init run
    Hpre Hfd Hnd.
  assert (Hstatic :
            (own_prop opts "method" = None →
             own_prop init "method"
             = Some (IString (match Submitter.method params with
                              | Some m => m
                              | None => "POST"%string
                              end)))
            ∧ (own_prop opts "body" = None →
               own_prop init "body" = Some (IFormData fd))
            ∧ (∀ k v, own_prop opts k = Some v → own_prop init k = Some v)).
  { subst init. unfold fetch_init. fold opts. split; [| split].
    - intros H. by rewrite own_prop_spread_None.
    - intros H. by rewrite own_prop_spread_None.
    - intros k v H. by apply own_prop_spread_Some. }
  destruct Hstatic as (Hm & Hb & Hopts).
  assert (Hrun :
            fired KFetch (log (snd run)) = 1%nat
            ∧ (∃ after, log (snd run) = log s1 ++ EvFetch url init :: after)
            ∧ (∀ r h2,
                 fetch (url, init) (st_heap s1) = (Ok r, h2) → ok r = true →
                 isFailed (snd run) = false
                 ∧ match Submitter.onSuccess params with
                   | Some _ =>
                       fired KOnSuccess (log (snd run)) = 1%nat
                       ∧ EvOnSuccess td (Some r) ∈ log (snd run)
                   | None => fired KOnSuccess (log (snd run)) = 0%nat
                   end)); [| by destruct Hrun as (? & ? & ?)].
  destruct (prelude_spec _ _ _ _ _ _ _ _ Hpre)
    as (_ & (evs1 & Hlog1 & Hk1) & Hloc).
  destruct (Hloc td eq_refl) as [Hok1 Hresp1]. simpl in Hlog1.
  assert (Hdisp :
            dispatch (Endpoint url) (Submitter.defaultValues params)
              (Submitter.method params) (Submitter.fetchOptions params)
              fetch td s1
            = match fetch (url, init) (st_heap s1) with
              | (Ok r, h2) =>
                  (Ok tt, mkState h2 (isFailed s1) (ok r) (Some r)
                            (log s1 ++ [EvFetch url init]))
              | (Throw e, h2) =>
                  (Throw e, mkState h2 (isFailed s1) (submitOk s1)
                              (response s1) (log s1 ++ [EvFetch url init]))
              end).
  { unfold dispatch, bind. rewrite Hfd. fold init.
    unfold call, set_response, set_submitOk.
    destruct (fetch (url, init) (st_heap s1)) as [[r|e] h2]; reflexivity. }
  subst run. unfold Submitter.submitter, bind. rewrite Hpre.
  unfold try_catch_finally, Submitter.try_block, bind. rewrite Hdisp.
  unfold Submitter.catch_block, Submitter.finally_block. unfold_monad.
  destruct (fetch (url, init) (st_heap s1)) as [[r|e] h2] eqn:Ef; simpl.
  - destruct (ok r) eqn:Hokr; simpl.
    + destruct (Submitter.onFailure params) as [f|]; simpl;
        (destruct (Submitter.onSuccess params) as [k|]; simpl;
         [destruct (k _ _) as [[[]|?] ?]; simpl |];
         try (destruct (Submitter.mutate params) as [m|]; simpl;
              [destruct (m _ _) as [[[]|?] ?]; simpl |]);
         (split; [rewrite Hlog1, !fired_app, (Hk1 KFetch eq_refl); reflexivity |];
          split; [eexists; rewrite <- ?app_assoc; simpl; reflexivity |];
          intros r' h2' [= <- <-] _; split; [reflexivity |];
          rewrite Hlog1, ?fired_app, ?(Hk1 KOnSuccess eq_refl);
          first [reflexivity
                | split; [reflexivity |];
                  rewrite !elem_of_app, !elem_of_cons; eauto 10])).
    + destruct (Submitter.onFailure params) as [f|]; simpl;
        [destruct (f _ _) as [[[]|?] ?]; simpl;
         try (destruct (Submitter.onError params) as [g|]; simpl;
              [destruct (g _ _) as [[[]|?] ?]; simpl |]) |];
        (split; [rewrite Hlog1, !fired_app, (Hk1 KFetch eq_refl); reflexivity |];
         split; [eexists; rewrite <- ?app_assoc; simpl; reflexivity |];
         intros r' h2' [= <- <-] Hr'; congruence).
  - destruct (Submitter.onError params) as [g|]; simpl;
      [destruct (g _ _) as [[[]|?] ?]; simpl |];
      rewrite Hok1; simpl;
      (split; [rewrite Hlog1, !fired_app, (Hk1 KFetch eq_refl); reflexivity |];
       split; [eexists; rewrite <- ?app_assoc; simpl; reflexivity |];
       intros r' h2' [=]).
Qed.

Lemma endpoint_call_fetches_once_witness :
  ∃ s1 fd,
    prelude (Submitter.transform Example.with_credentials)
      (Submitter.confirmation Example.with_credentials) Example.accept 0%nat
      None (start Example.store false) = (Ok (Some 0%nat), s1)
    ∧ to_form_data_without_default 0%nat
        (Submitter.defaultValues Example.with_credentials) s1 = (Ok fd, s1)
    ∧ NoDup (Object_keys
               (match Submitter.fetchOptions Example.with_credentials with
                | Some o => o
                | None => []
                end))
    ∧ fired KFetch
        (log (snd (Submitter.submitter (Endpoint Example.url)
                     Example.with_credentials Example.accept Example.fetch_200
                     0%nat None (start Example.store false)))) = 1%nat.
Proof.
  set (s1 := snd (prelude (Submitter.transform Example.with_credentials)
                    (Submitter.confirmation Example.with_credentials)
                    Example.accept 0%nat None (start Example.store false))).
  assert (H1 : prelude (Submitter.transform Example.with_credentials)
                 (Submitter.confirmation Example.with_credentials)
                 Example.accept 0%nat None (start Example.store false)
               = (Ok (Some 0%nat), s1)) by reflexivity.
  assert (H2 : to_form_data_without_default 0%nat
                 (Submitter.defaultValues Example.with_credentials) s1
               = (Ok [("age"%string, FString "31")], s1)) by reflexivity.
  assert (H3 : NoDup (Object_keys
                        (match Submitter.fetchOptions Example.with_credentials with
                         | Some o => o
                         | None => []
                         end))).
  { simpl. apply NoDup_cons. split; [apply not_elem_of_nil | apply NoDup_nil_2]. }
  exists s1, [("age"%string, FString "31")].
  split; [exact H1 |]. split; [exact H2 |]. split; [exact H3 |].
  exact (proj1 (endpoint_call_fetches_once Example.url Example.with_credentials
                  Example.accept Example.fetch_200 0%nat None Example.store
                  false 0%nat s1 [("age"%string, FString "31")] H1 H2 H3)).
Defined.

(** * Further properties of the code *)

(** ** The comparison as a relation *)

Ltac eqb_to_eq :=
  rewrite ?andb_true_iff, ?Z.eqb_eq, ?String.eqb_eq, ?Nat.eqb_eq,
    ?Bool.eqb_true_iff in *.

Lemma spec_equal_trans v d w :
  spec_equal v d = true → spec_equal d w = true → spec_equal v w = true.
Proof.
  destruct v as [| |a|[|a]|a|a|i f|i l|i p], d as [| |b|[|b]|b|b|j g|j m|j q],
    w as [| |c|[|c]|c|c|k e|k n|k r]; simpl; try discriminate; try reflexivity;
    eqb_to_eq; intuition congruence.
Qed.

Lemma spec_equal_sym v d : spec_equal v d = spec_equal d v.
Proof.
  destruct v as [| |a|[|a]|a|a|i f|i l|i p], d as [| |b|[|b]|b|b|j g|j m|j q];
    simpl; try reflexivity.
  - destruct a, b; reflexivity.
  - apply Z.eqb_sym.
  - apply Z.eqb_sym.
  - apply String.eqb_sym.
  - rewrite (String.eqb_sym (file_name f)), (Z.eqb_sym (file_size f)),
      (String.eqb_sym (file_type f)), (Z.eqb_sym (file_lastModified f)). done.
  - apply Nat.eqb_sym.
  - apply Nat.eqb_sym.
Qed.

Lemma spec_equal_truthy v d : spec_equal v d = true → truthy v = truthy d.
Proof.
  destruct v as [| |a|[|a]|a|a|i f|i l|i p], d as [| |b|[|b]|b|b|j g|j m|j q];
    simpl; try discriminate; try reflexivity; eqb_to_eq; intros; subst;
    reflexivity.
Qed.

Lemma is_same_values_refl v : is_same_values v v = truthy v.
Proof.
  rewrite is_same_values_spec.
  destruct v as [| |a|[|a]|a|a|i f|i l|i p]; simpl; try reflexivity.
  - by destruct a.
  - by rewrite Z.eqb_refl, andb_true_r.
  - by rewrite Z.eqb_refl, andb_true_r.
  - by rewrite String.eqb_refl, andb_true_r.
  - by rewrite !String.eqb_refl, !Z.eqb_refl.
  - apply Nat.eqb_refl.
  - apply Nat.eqb_refl.
Qed.

(** X1. [is_same_values] is a partial equivalence on values: a value is the
    same as itself exactly when it is truthy (so 0, the empty string, false,
    null, undefined and NaN never count as unchanged), the order of the two
    arguments does not matter, and sameness is transitive. Two files with
    the same name, size, type and lastModified are the same whatever their
    identity; two objects, or two arrays, with different identities are
    never the same, whatever they hold. *)
Theorem is_same_values_is_a_partial_equivalence :
  (∀ v, is_same_values v v = truthy v)
  ∧ (∀ v d, is_same_values v d = is_same_values d v)
  ∧ (∀ v d w,
       is_same_values v d = true → is_same_values d w = true →
       is_same_values v w = true)
  ∧ (∀ i j f, is_same_values (VFile i f) (VFile j f) = true)
  ∧ (∀ i j p q, i ≠ j → is_same_values (VObject i p) (VObject j q) = false)
  ∧ (∀ i j l m, i ≠ j → is_same_values (VArray i l) (VArray j m) = false).
Proof.
  split; [exact is_same_values_refl |]. split; [| split; [| split; [| split]]].
  - intros v d. rewrite !is_same_values_spec, (spec_equal_sym v d).
    destruct (spec_equal d v) eqn:E.
    + by rewrite (spec_equal_truthy d v E).
    + by rewrite !andb_false_r.
  - intros v d w. rewrite !is_same_values_spec, !andb_true_iff.
    intros [_ H1] [Hw H2]. split; [done |]. by apply spec_equal_trans with d.
  - intros i j f. unfold is_same_values, is_same_files. simpl.
    by rewrite !String.eqb_refl, !Z.eqb_refl.
  - intros i j p q Hne. unfold is_same_values. simpl.
    by rewrite (proj2 (Nat.eqb_neq i j) Hne).
  - intros i j l m Hne. unfold is_same_values. simpl.
    by rewrite (proj2 (Nat.eqb_neq i j) Hne).
Qed.

Lemma is_same_values_is_a_partial_equivalence_witness :
  is_same_values (VString "Nir") (VString "Nir") = true
  ∧ is_same_values (VString "Nir") (VString "Nir") = true
  ∧ is_same_values (VString "Nir") (VString "Nir") = true.
Proof.
  split; [reflexivity |]. split; [reflexivity |].
  exact (proj1 (proj2 (proj2 is_same_values_is_a_partial_equivalence))
           (VString "Nir") (VString "Nir") (VString "Nir") eq_refl eq_refl).
Defined.

(** ** Submitting what the defaults already hold *)





Lemma without_defaults_loop_all_same entries defaults acc :
  (∀ k v, (k, v) ∈ entries → is_same_values v (get_prop defaults k) = true) →
  without_defaults_loop entries defaults acc = acc.
Proof.
  induction entries as [|[k v] rest IH]; intros H; simpl; [done |].
  rewrite (H k v) by (apply elem_of_cons; by left). simpl.
  apply IH. intros k' v' Hin. apply H, elem_of_cons. by right.
Qed.

Lemma to_form_data_loop_all_same entries defaults acc :
  (∀ k v, (k, v) ∈ entries → is_same_values v (get_prop defaults k) = true) →
  to_form_data_loop entries (Some defaults) acc = Ok acc.
Proof.
  induction entries as [|[k v] rest IH]; intros H; simpl; [done |].
  rewrite (H k v) by (apply elem_of_cons; by left). simpl.
  apply IH. intros k' v' Hin. apply H, elem_of_cons. by right.
Qed.

(** X3. Nothing is short-circuited when nothing changed: if every value of
    the transformed data is the same as its default, an endpoint is still
    fetched, with an empty payload, and a destination function is still
    called, with a fresh record that has no property. *)
Theorem unchanged_form_is_still_dispatched :
  ∀ destination (d : loc) method fetchOptions fetch (td : loc) (s1 : state),
    (∀ k v, (k, v) ∈ deref (st_heap s1) td →
            is_same_values v (get_prop (deref (st_heap s1) d) k) = true) →
    let run := dispatch destination (Some d) method fetchOptions fetch td s1 in
    match destination with
    | Endpoint url =>
        let init := fetch_init method fetchOptions [] in
        log (snd run) = log s1 ++ [EvFetch url init]
        ∧ st_heap (snd run) = snd (fetch (url, init) (st_heap s1))
    | Action f =>
        let diff := length (st_heap s1) in
        log (snd run) = log s1 ++ [EvDestination diff]
        ∧ deref (st_heap s1 ++ [[]]) diff = []
        ∧ st_heap (snd run) = snd (f diff (st_heap s1 ++ [[]]))
    end.
Proof.
  intros destination d method fetchOptions fetch td s1 Hsame run. subst run.
  unfold dispatch, to_form_data_without_default, without_defaults.
  destruct destination as [url|f]; unfold_monad; simpl.
  - rewrite to_form_data_loop_all_same by done. simpl.
    destruct (fetch _ _) as [[r|e] h']; simpl; done.
  - rewrite without_defaults_loop_all_same by done. simpl.
    rewrite deref_alloc.
    destruct (f _ _) as [[b|e] h']; simpl; done.
Qed.

Lemma unchanged_form_is_still_dispatched_witness :
  (∀ k v, (k, v) ∈ deref (st_heap (start Example.store false)) 1%nat →
          is_same_values v
            (get_prop (deref (st_heap (start Example.store false)) 1%nat) k)
          = true)
  ∧ log (snd (dispatch (Endpoint Example.url) (Some 1%nat) None None
                Example.fetch_200 1%nat (start Example.store false)))
    = [EvFetch Example.url (fetch_init None None [])].
Proof.
  assert (H : ∀ k v, (k, v) ∈ deref (st_heap (start Example.store false)) 1%nat →
                     is_same_values v
                       (get_prop (deref (st_heap (start Example.store false)) 1%nat) k)
                     = true).
  { intros k v Hin. simpl in Hin.
    apply elem_of_cons in Hin as [Hin|Hin]; [injection Hin as -> ->; reflexivity |].
    apply elem_of_cons in Hin as [Hin|Hin]; [injection Hin as -> ->; reflexivity |].
    by apply elem_of_nil in Hin. }
  split; [exact H |].
  exact (proj1 (unchanged_form_is_still_dispatched (Endpoint Example.url) 1%nat
                  None None Example.fetch_200 1%nat
                  (start Example.store false) H)).
Defined.

(** ** The diff as a patch *)

Lemma NoDup_filter_keys (f : string * value → bool) (o : object) :
  NoDup (Object_keys o) → NoDup (Object_keys (List.filter f o)).
Proof.
  induction o as [|[k v] o IH]; simpl; [done |].
  rewrite NoDup_cons. intros [Hk Hnd]. destruct (f (k, v)); simpl; [| auto].
  apply NoDup_cons. split; [| auto].
  intros Hin. apply Hk. clear -Hin.
  induction o as [|[k' v'] o IH]; simpl in *; [done |].
  destruct (f (k', v')); simpl in *; rewrite ?elem_of_cons in *; intuition.
Qed.

(** X4. The diff is a patch that loses nothing: laying it over the default
    values, as [{...defaults, ...diff}] does, gives for every key of the data
    the data's own value, or a value [is_same_values] does not tell apart
    from it. *)
Theorem diff_over_defaults_gives_back_the_data :
  ∀ (s : state) (values d : loc),
    NoDup (Object_keys (deref (st_heap s) values)) →
    ∃ diff s',
      without_defaults values (Some d) s = (Ok diff, s')
      ∧ ∀ k v, (k, v) ∈ deref (st_heap s) values →
          let patched :=
            get_prop (spread (deref (st_heap s) d) (deref (st_heap s') diff)) k
          in
          patched = v ∨ is_same_values v patched = true.
Proof.
  intros s values d Hnd. eexists _, _.
  unfold without_defaults, bind, read, alloc. simpl.
  split; [reflexivity |]. simpl. rewrite deref_alloc.
  rewrite without_defaults_loop_filter by (done || intros; done). simpl.
  intros k v Hin.
  set (data := deref (st_heap s) values) in *.
  set (defaults := deref (st_heap s) d).
  destruct (changed defaults (k, v)) eqn:Hch.
  - left. unfold get_prop.
    rewrite (own_prop_spread_Some defaults _ k v); [done | |].
    + by apply NoDup_filter_keys.
    + apply elem_of_own_prop; [by apply NoDup_filter_keys |].
      by apply elem_of_filter_bool.
  - right. unfold get_prop. rewrite own_prop_spread_None.
    + unfold changed in Hch. simpl in Hch.
      by rewrite negb_false_iff in Hch.
    + apply own_prop_None. by apply (elem_of_filter_keys _ data k v).
Qed.

Lemma diff_over_defaults_gives_back_the_data_witness :
  NoDup (Object_keys (deref (st_heap (start Example.store false)) 0%nat))
  ∧ ∃ diff s',
      without_defaults 0%nat (Some 1%nat) (start Example.store false)
      = (Ok diff, s')
      ∧ ∀ k v, (k, v) ∈ deref (st_heap (start Example.store false)) 0%nat →
          let patched :=
            get_prop (spread (deref (st_heap (start Example.store false)) 1%nat)
                        (deref (st_heap s') diff)) k
          in
          patched = v ∨ is_same_values v patched = true.
Proof.
  assert (H : NoDup (Object_keys (deref (st_heap (start Example.store false)) 0%nat))).
  { simpl. apply NoDup_cons. split.
    - intros H. apply list_elem_of_singleton in H. discriminate H.
    - apply NoDup_cons. split; [apply not_elem_of_nil | apply NoDup_nil_2]. }
  split; [exact H |].
  exact (diff_over_defaults_gives_back_the_data (start Example.store false)
           0%nat 1%nat H).
Defined.

(** ** The flag *)

Ltac use_submitOk :=
  simpl;
  repeat match goal with
         | H : submitOk ?s = _ |- context [submitOk ?s] => rewrite H
         end.

(** Splits a run on every option it reads and every call it makes, the
    innermost first. *)
Ltac case_run :=
  repeat
    (use_submitOk;
     match goal with
     | |- context [match ?o with Some _ => _ | None => _ end] =>
         destruct o eqn:?
     | |- context [if negb ?b then _ else _] => destruct b eqn:?
     | |- context [if ?b then _ else _] => destruct b eqn:?
     | |- context [match ?c with (_, _) => _ end] =>
         lazymatch c with
         | context [match _ with (_, _) => _ end] => fail
         | context [if _ then _ else _] => fail
         | context [match _ with Some _ => _ | None => _ end] => fail
         | _ => destruct c as [[?|?] ?] eqn:?
         end
     end).

(** X5. The flag is a function of the outcome alone. In both variants, a call
    that gets past the prelude ends with [isFailed] being the negation of
    [submitOk], and [submitOk] is true exactly when the dispatch returned and
    reported success: what the callbacks do, or throw, does not change it. A
    call that ends in the prelude (declined prompt, throwing transform)
    leaves the flag as it was. *)
Theorem flag_is_the_negated_outcome :
  (∀ destination params confirm fetch data event h failed,
     let run :=
       Submitter.submitter destination params confirm fetch data event
         (start h failed) in
     match prelude (Submitter.transform params)
             (Submitter.confirmation params) confirm data event
             (start h failed) with
     | (Ok (Some td), s1) =>
         isFailed (snd run) = negb (submitOk (snd run))
         ∧ submitOk (snd run)
           = match dispatch destination (Submitter.defaultValues params)
                     (Submitter.method params) (Submitter.fetchOptions params)
                     fetch td s1 with
             | (Ok _, s2) => submitOk s2
             | (Throw _, _) => false
             end
     | _ => isFailed (snd run) = failed
     end)
  ∧ (∀ destination params confirm fetch data event h failed,
       let run :=
         ResetSubmitter.submitter destination params confirm fetch data event
           (start h failed) in
       match prelude (ResetSubmitter.transform params)
               (ResetSubmitter.confirmation params) confirm data event
               (start h failed) with
       | (Ok (Some td), s1) =>
           isFailed (snd run) = negb (submitOk (snd run))
           ∧ submitOk (snd run)
             = match dispatch destination
                       (ResetSubmitter.default_values params)
                       (ResetSubmitter.method params)
                       (ResetSubmitter.fetch_options params) fetch td s1 with
               | (Ok _, s2) => submitOk s2
               | (Throw _, _) => false
               end
       | _ => isFailed (snd run) = failed
       end).
Proof.
  split.
  - intros destination params confirm fetch data event h failed run.
    subst run. unfold Submitter.submitter, bind.
    destruct (prelude _ _ _ _ _ _) as [[[td|]|e0] s1] eqn:Hpre;
      destruct (prelude_spec _ _ _ _ _ _ _ _ Hpre) as (Hfl & _ & Hloc);
      [| exact Hfl | exact Hfl].
    destruct (Hloc td eq_refl) as [Hok1 _].
    unfold try_catch_finally, Submitter.try_block, bind.
    destruct (dispatch _ _ _ _ _ _ _) as [[[]|e] s2] eqn:Hdisp;
      destruct (dispatch_spec _ _ _ _ _ _ _ _ _ Hdisp) as (_ & _ & Hthrow).
    + unfold Submitter.catch_block, Submitter.finally_block. unfold_monad.
      cbn beta. destruct (submitOk s2) eqn:Hok2; case_run; try congruence;
        split; use_submitOk; reflexivity.
    + destruct (Hthrow e eq_refl) as [Hok2 _]. rewrite Hok1 in Hok2.
      unfold Submitter.catch_block, Submitter.finally_block. unfold_monad.
      case_run; try congruence; split; use_submitOk; reflexivity.
  - intros destination params confirm fetch data event h failed run.
    subst run. unfold ResetSubmitter.submitter, bind.
    destruct (prelude _ _ _ _ _ _) as [[[td|]|e0] s1] eqn:Hpre;
      destruct (prelude_spec _ _ _ _ _ _ _ _ Hpre) as (Hfl & _ & Hloc);
      [| exact Hfl | exact Hfl].
    destruct (Hloc td eq_refl) as [Hok1 _].
    unfold try_catch_finally, ResetSubmitter.try_block.
    destruct (dispatch _ _ _ _ _ _ _) as [[[]|e] s2] eqn:Hdisp;
      destruct (dispatch_spec _ _ _ _ _ _ _ _ _ Hdisp) as (_ & _ & Hthrow).
    + unfold ResetSubmitter.finally_block. unfold_monad.
      destruct (submitOk s2) eqn:Hok2; simpl.
      * destruct (ResetSubmitter.reset params) as [f|]; simpl;
          [destruct (f _ _) as [[[]|?] ?] |]; simpl;
          try (destruct (ResetSubmitter.on_success params) as [g|]; simpl;
               [destruct (g _ _) as [[[]|?] ?] |]; simpl;
               try (destruct (ResetSubmitter.mutate params) as [m|]; simpl;
                    [match goal with
                     | |- context [ResetSubmitter.mutate_data ?m ?t ?dv ?s] =>
                         destruct (mutate_data_log m t dv s) as (r & h' & ->)
                     end |]; simpl));
          split; use_submitOk; reflexivity.
      * case_run; try congruence; split; use_submitOk; reflexivity.
    + destruct (Hthrow e eq_refl) as [Hok2 _]. rewrite Hok1 in Hok2.
      unfold ResetSubmitter.catch_block, ResetSubmitter.finally_block.
      unfold_monad.
      case_run; try congruence; split; use_submitOk; reflexivity.
Qed.

(** ** Which calls a stage can make *)

Section Emits.
Context {A : Type}.
Implicit Types (allowed : kind → bool) (m : M A).

Lemma emits_silent allowed m :
  (∀ s, log (snd (m s)) = log s) → emits allowed m.
Proof.
  intros H s r s' Hm. exists []. rewrite app_nil_r.
  split; [| done]. specialize (H s). by rewrite Hm in H.
Qed.

Lemma emits_ret allowed (a : A) : emits allowed (ret a).
Proof. by apply emits_silent. Qed.

Lemma emits_lift allowed (r : result A) : emits allowed (lift r).
Proof. by apply emits_silent. Qed.

Lemma emits_weaken allowed allowed' m :
  (∀ k, allowed k = true → allowed' k = true) →
  emits allowed m → emits allowed' m.
Proof.
  intros Hsub Hm s r s' Hrun. destruct (Hm s r s' Hrun) as (evs & Hlog & Hk).
  exists evs. split; [done |]. intros k Hk'. apply Hk.
  destruct (allowed k) eqn:E; [| done]. by rewrite (Hsub k E) in Hk'.
Qed.
End Emits.

Lemma emits_bind {A B} allowed (m : M A) (k : A → M B) :
  emits allowed m → (∀ a, emits allowed (k a)) → emits allowed (bind m k).
Proof.
  intros Hm Hk s r s'. unfold bind.
  destruct (m s) as [[a|e] s1] eqn:Em;
    destruct (Hm s _ s1 Em) as (evs1 & Hlog1 & Hk1).
  - intros Hrun. destruct (Hk a s1 r s' Hrun) as (evs2 & Hlog2 & Hk2).
    exists (evs1 ++ evs2). rewrite Hlog2, Hlog1, app_assoc. split; [done |].
    intros k0 Hk0. by rewrite fired_app, Hk1, Hk2.
  - intros [= <- <-]. by exists evs1.
Qed.

Lemma emits_call {A B} allowed ev (f : external A B) a :
  allowed (kind_of ev) = true → emits allowed (call ev f a).
Proof.
  intros Hev s r s'. unfold call. destruct (f a (st_heap s)) as [r' h'].
  intros [= <- <-]. exists [ev]. split; [done |]. intros k Hk.
  unfold fired. simpl. destruct (kind_eqb (kind_of ev) k) eqn:E; [| done].
  destruct (kind_of ev), k; simpl in E; congruence.
Qed.

Lemma emits_emit allowed ev :
  allowed (kind_of ev) = true → emits allowed (emit ev).
Proof.
  intros Hev s r s'. unfold emit. intros [= <- <-]. exists [ev].
  split; [done |]. intros k Hk.
  unfold fired. simpl. destruct (kind_eqb (kind_of ev) k) eqn:E; [| done].
  destruct (kind_of ev), k; simpl in E; congruence.
Qed.

Lemma emits_try_catch_finally allowed body handler final :
  emits allowed body → (∀ e, emits allowed (handler e)) →
  emits allowed final →
  emits allowed (try_catch_finally body handler final).
Proof.
  intros Hb Hh Hf s r s'. unfold try_catch_finally.
  destruct (body s) as [[[]|e] s1] eqn:Eb;
    destruct (Hb s _ s1 Eb) as (evs1 & Hlog1 & Hk1).
  - intros Hrun. destruct (Hf s1 r s' Hrun) as (evs2 & Hlog2 & Hk2).
    exists (evs1 ++ evs2). rewrite Hlog2, Hlog1, app_assoc. split; [done |].
    intros k0 Hk0. by rewrite fired_app, Hk1, Hk2.
  - destruct (handler e s1) as [rh s2] eqn:Eh.
    destruct (Hh e s1 rh s2 Eh) as (evs2 & Hlog2 & Hk2).
    destruct (final s2) as [rf s3] eqn:Ef.
    destruct (Hf s2 rf s3 Ef) as (evs3 & Hlog3 & Hk3).
    assert (Hlog : log s3 = log s ++ (evs1 ++ evs2 ++ evs3))
      by (by rewrite Hlog3, Hlog2, Hlog1, <- !app_assoc).
    assert (Hk : ∀ k, allowed k = false → fired k (evs1 ++ evs2 ++ evs3) = 0%nat)
      by (intros k0 Hk0; by rewrite !fired_app, Hk1, Hk2, Hk3).
    destruct rh as [[]|e']; [| destruct rf as [[]|e'']];
      intros [= <- <-]; eauto.
Qed.

Lemma emits_unawaited allowed (m : M unit) :
  emits allowed m → emits allowed (unawaited m).
Proof.
  intros Hm s r s'. unfold unawaited. destruct (m s) as [r0 s0] eqn:Em.
  intros [= <- <-]. exact (Hm s r0 s0 Em).
Qed.

(** Applies the rules above along the shape of a computation. *)
Ltac emits_auto :=
  repeat
    first
      [ apply emits_ret
      | apply emits_lift
      | apply emits_call; reflexivity
      | apply emits_emit; reflexivity
      | apply emits_silent; intros ?; reflexivity
      | apply emits_bind; [| intros ?]
      | apply emits_unawaited
      | match goal with
        | |- emits _ (match ?x with _ => _ end) => destruct x
        | |- emits _ (if ?b then _ else _) => destruct b
        | |- emits _ (let _ := _ in _) => cbv zeta
        end ].

Lemma emits_to_form_data_without_default allowed data default_data :
  emits allowed (to_form_data_without_default data default_data).
Proof. unfold to_form_data_without_default, read_opt. emits_auto. Qed.

Lemma emits_without_defaults allowed values defaultValues :
  emits allowed (without_defaults values defaultValues).
Proof. unfold without_defaults. emits_auto. Qed.

Lemma emits_prelude transform confirmation confirm data event :
  emits prelude_kind (prelude transform confirmation confirm data event).
Proof. unfold prelude. emits_auto. Qed.

Lemma emits_dispatch destination defaultValues method fetchOptions fetch td :
  emits dispatch_kind
    (dispatch destination defaultValues method fetchOptions fetch td).
Proof.
  unfold dispatch. destruct destination.
  - apply emits_bind; [apply emits_to_form_data_without_default | intros fd].
    emits_auto.
  - apply emits_bind; [apply emits_without_defaults | intros diff].
    emits_auto.
Qed.

Lemma emits_mutate_data allowed f td dv :
  allowed KMutate = true → emits allowed (ResetSubmitter.mutate_data f td dv).
Proof.
  intros Hm s r s' Hrun.
  destruct (mutate_data_log f td dv s) as (r0 & h' & Heq).
  rewrite Heq in Hrun. injection Hrun as <- <-. simpl.
  eexists. split; [reflexivity |]. intros k Hk.
  destruct k; try reflexivity. congruence.
Qed.

Lemma emits_after_prelude destination params fetch td :
  emits after_prelude_kind
    (try_catch_finally (Submitter.try_block destination params fetch td)
       (Submitter.catch_block params) (Submitter.finally_block params td)).
Proof.
  apply emits_try_catch_finally.
  - unfold Submitter.try_block.
    apply emits_bind; [| intros ?; emits_auto].
    apply (emits_weaken dispatch_kind); [by intros [] | apply emits_dispatch].
  - intros e. unfold Submitter.catch_block. emits_auto.
  - unfold Submitter.finally_block. emits_auto.
Qed.

Lemma emits_after_prelude_reset destination params fetch data td :
  emits after_prelude_kind
    (try_catch_finally (ResetSubmitter.try_block destination params fetch td)
       (ResetSubmitter.catch_block params)
       (ResetSubmitter.finally_block params data td)).
Proof.
  apply emits_try_catch_finally.
  - unfold ResetSubmitter.try_block.
    apply (emits_weaken dispatch_kind); [by intros [] | apply emits_dispatch].
  - intros e. unfold ResetSubmitter.catch_block. emits_auto.
  - unfold ResetSubmitter.finally_block. emits_auto;
      by apply emits_mutate_data.
Qed.

(** ** The head of a call *)

Lemma prelude_head_spec transform confirmation confirm data event s r s1 :
  prelude transform confirmation confirm data event s = (r, s1) →
  ∃ conf, log s1 = log s ++ prelude_head data event transform ++ conf
          ∧ (∀ k, k ≠ KConfirm → fired k conf = 0%nat)
          ∧ fired KConfirm conf
            = match confirmation, r with
              | Some message, Ok _ =>
                  if negb (String.eqb message "") then 1%nat else 0%nat
              | _, _ => 0%nat
              end.
Proof.
  unfold prelude, prelude_head. unfold_monad. intros H.
  destruct event, transform as [f|]; simpl in H;
    try destruct (f data (st_heap s)) as [[td|e] h1]; simpl in H;
    destruct confirmation as [message|]; simpl in H;
    try destruct (negb (String.eqb message "")); simpl in H;
    try destruct (negb (confirm message)); simpl in H;
    injection H as <- <-; simpl;
    (eexists; split;
     [rewrite <- ?app_assoc; simpl; try reflexivity;
      symmetry; apply app_nil_r
     | split; [intros k Hk; destruct k; (congruence || reflexivity)
              | reflexivity]]).
Qed.

(** X6. In both variants the log of a call starts the same way, whatever
    comes after (a declined prompt, an exception, a failure): with an event,
    [preventDefault] is the first call; the transform, when there is one, is
    the next, called with the raw data; and neither is called a second
    time. In particular the transform has already run when the user is
    asked to confirm. *)
Theorem every_call_starts_with_preventDefault_then_transform :
  (∀ destination params confirm fetch data event h failed,
     let evs :=
       log (snd (Submitter.submitter destination params confirm fetch data
                   event (start h failed))) in
     ∃ rest,
       evs = prelude_head data event (Submitter.transform params) ++ rest
       ∧ fired KPreventDefault rest = 0%nat
       ∧ fired KTransform rest = 0%nat)
  ∧ (∀ destination params confirm fetch data event h failed,
       let evs :=
         log (snd (ResetSubmitter.submitter destination params confirm fetch
                     data event (start h failed))) in
       ∃ rest,
         evs = prelude_head data event (ResetSubmitter.transform params)
               ++ rest
         ∧ fired KPreventDefault rest = 0%nat
         ∧ fired KTransform rest = 0%nat).
Proof.
  split.
  - intros destination params confirm fetch data event h failed evs.
    subst evs. unfold Submitter.submitter, bind.
    destruct (prelude _ _ _ _ _ _) as [[[td|]|e0] s1] eqn:Hpre;
      destruct (prelude_head_spec _ _ _ _ _ _ _ _ Hpre)
        as (conf & Hlog1 & Hk1 & _); simpl in Hlog1.
    + destruct (try_catch_finally _ _ _ s1) as [r s'] eqn:Hrun.
      destruct (emits_after_prelude _ _ _ _ _ _ _ Hrun)
        as (tail & Hlog & Hk).
      exists (conf ++ tail). simpl. rewrite Hlog, Hlog1, <- app_assoc.
      split; [done |]. rewrite !fired_app, !Hk1, !Hk by done. done.
    + exists conf. simpl. rewrite Hlog1. split; [done |].
      by rewrite !Hk1.
    + exists conf. simpl. rewrite Hlog1. split; [done |].
      by rewrite !Hk1.
  - intros destination params confirm fetch data event h failed evs.
    subst evs. unfold ResetSubmitter.submitter, bind.
    destruct (prelude _ _ _ _ _ _) as [[[td|]|e0] s1] eqn:Hpre;
      destruct (prelude_head_spec _ _ _ _ _ _ _ _ Hpre)
        as (conf & Hlog1 & Hk1 & _); simpl in Hlog1.
    + destruct (try_catch_finally _ _ _ s1) as [r s'] eqn:Hrun.
      destruct (emits_after_prelude_reset _ _ _ _ _ _ _ _ Hrun)
        as (tail & Hlog & Hk).
      exists (conf ++ tail). simpl. rewrite Hlog, Hlog1, <- app_assoc.
      split; [done |]. rewrite !fired_app, !Hk1, !Hk by done. done.
    + exists conf. simpl. rewrite Hlog1. split; [done |].
      by rewrite !Hk1.
    + exists conf. simpl. rewrite Hlog1. split; [done |].
      by rewrite !Hk1.
Qed.

(** X7. The prompt is shown at most once per call, and only for a message
    that is not empty, after the transform has returned: without the
    [confirmation] option, or with the empty string for it, [confirm] is
    never called and the call goes on as soon as the transform returns.
    When the prompt is shown, the call goes on exactly when the user
    accepts. *)
Theorem prompt_is_shown_only_for_a_non_empty_message :
  ∀ destination params confirm fetch data event h failed,
    let run :=
      Submitter.submitter destination params confirm fetch data event
        (start h failed) in
    let transformed :=
      match Submitter.transform params with
      | Some f => fst (f data h)
      | None => Ok data
      end in
    let shown :=
      match Submitter.confirmation params with
      | Some message => negb (String.eqb message "")
      | None => false
      end in
    fired KConfirm (log (snd run))
    = (if shown && is_ok transformed then 1%nat else 0%nat)
    ∧ fst (prelude (Submitter.transform params)
             (Submitter.confirmation params) confirm data event
             (start h failed))
      = match transformed with
        | Throw e => Throw e
        | Ok td =>
            match Submitter.confirmation params with
            | Some message =>
                if shown && negb (confirm message)
                then Ok None
                else Ok (Some td)
            | None => Ok (Some td)
            end
        end.
Proof.
  intros destination params confirm fetch data event h failed run transformed
    shown. split.
  - subst run. unfold Submitter.submitter, bind.
    destruct (prelude _ _ _ _ _ _) as [r0 s1] eqn:Hpre.
    destruct (prelude_head_spec _ _ _ _ _ _ _ _ Hpre)
      as (conf & Hlog1 & Hk1 & Hconf). simpl in Hlog1.
    assert (Hhead : fired KConfirm
                      (prelude_head data event (Submitter.transform params))
                    = 0%nat).
    { unfold prelude_head.
      by destruct event, (Submitter.transform params). }
    assert (Hr0 : is_ok r0 = is_ok transformed).
    { revert Hpre. subst transformed. unfold prelude. unfold_monad.
      destruct event, (Submitter.transform params) as [f|]; simpl;
        try destruct (f data h) as [[td|e] h1]; simpl;
        destruct (Submitter.confirmation params) as [message|]; simpl;
        try destruct (negb (String.eqb message "")); simpl;
        try destruct (negb (confirm message)); simpl;
        intros [= <- <-]; reflexivity. }
    assert (Hcount : fired KConfirm conf
                     = if shown && is_ok transformed then 1%nat else 0%nat).
    { rewrite Hconf, <- Hr0. subst shown.
      destruct (Submitter.confirmation params) as [message|], r0 as [go|e];
        simpl; try reflexivity.
      - by rewrite andb_true_r.
      - by rewrite andb_false_r. }
    destruct r0 as [[td|]|e0]; simpl.
    + destruct (try_catch_finally _ _ _ s1) as [r s'] eqn:Hrun.
      destruct (emits_after_prelude _ _ _ _ _ _ _ Hrun)
        as (tail & Hlog & Hk).
      simpl. rewrite Hlog, Hlog1, !fired_app, Hhead, Hcount.
      rewrite (Hk KConfirm eq_refl). lia.
    + rewrite Hlog1, !fired_app, Hhead, Hcount. lia.
    + rewrite Hlog1, !fired_app, Hhead, Hcount. lia.
  - subst transformed shown. unfold prelude. unfold_monad.
    destruct event, (Submitter.transform params) as [f|]; simpl;
      try destruct (f data h) as [[td|e] h1]; simpl;
      destruct (Submitter.confirmation params) as [message|]; simpl;
      try destruct (negb (String.eqb message "")); simpl;
      try destruct (negb (confirm message)); simpl; reflexivity.
Qed.

(** ** After the dispatch *)

Lemma submitter_after_prelude destination params confirm fetch data event s td s1 :
  prelude (Submitter.transform params) (Submitter.confirmation params)
    confirm data event s = (Ok (Some td), s1) →
  Submitter.submitter destination params confirm fetch data event s
  = try_catch_finally (Submitter.try_block destination params fetch td)
      (Submitter.catch_block params) (Submitter.finally_block params td) s1.
Proof. intros H. unfold Submitter.submitter, bind. by rewrite H. Qed.

Lemma run_after_success destination params fetch td s1 s2 :
  dispatch destination (Submitter.defaultValues params)
    (Submitter.method params) (Submitter.fetchOptions params) fetch td s1
  = (Ok tt, s2) →
  submitOk s2 = true →
  try_catch_finally (Submitter.try_block destination params fetch td)
    (Submitter.catch_block params) (Submitter.finally_block params td) s1
  = Submitter.finally_block params td s2.
Proof.
  intros Hdisp Hok. unfold try_catch_finally, Submitter.try_block, bind.
  rewrite Hdisp. unfold_monad. rewrite Hok.
  by destruct (Submitter.onFailure params).
Qed.

Lemma run_after_throw destination params fetch td s1 e s2 :
  dispatch destination (Submitter.defaultValues params)
    (Submitter.method params) (Submitter.fetchOptions params) fetch td s1
  = (Throw e, s2) →
  try_catch_finally (Submitter.try_block destination params fetch td)
    (Submitter.catch_block params) (Submitter.finally_block params td) s1
  = match Submitter.catch_block params e s2 with
    | (Ok _, s3) => Submitter.finally_block params td s3
    | (Throw e', s3) =>
        match Submitter.finally_block params td s3 with
        | (Ok _, s4) => (Throw e', s4)
        | (Throw e'', s4) => (Throw e'', s4)
        end
    end.
Proof.
  intros Hdisp. unfold try_catch_finally, Submitter.try_block, bind.
  by rewrite Hdisp.
Qed.

(** X8. On success the hook clears the flag, then calls [onSuccess] with the
    transformed data and the response, then [mutate] with the transformed
    data, each once and in that order: when [onSuccess] returns normally (or
    is not given), these are the only calls after the dispatch, and the
    promise settles as [mutate] does. *)
Theorem success_calls_onSuccess_then_mutate :
  ∀ destination params confirm fetch data event h failed td s1 s2,
    prelude (Submitter.transform params) (Submitter.confirmation params)
      confirm data event (start h failed) = (Ok (Some td), s1) →
    dispatch destination (Submitter.defaultValues params)
      (Submitter.method params) (Submitter.fetchOptions params) fetch td s1
    = (Ok tt, s2) →
    submitOk s2 = true →
    never_throws_opt (Submitter.onSuccess params) →
    let run :=
      Submitter.submitter destination params confirm fetch data event
        (start h failed) in
    isFailed (snd run) = false
    ∧ log (snd run)
      = log s2
        ++ (match Submitter.onSuccess params with
            | Some _ => [EvOnSuccess td (response s2)]
            | None => []
            end)
        ++ (match Submitter.mutate params with
            | Some _ => [EvMutate td]
            | None => []
            end)
    ∧ (never_throws_opt (Submitter.mutate params) → fst run = Ok tt).
Proof.
  intros destination params confirm fetch data event h failed td s1 s2
    Hpre Hdisp Hok Hsucc run. subst run.
  rewrite (submitter_after_prelude _ _ _ _ _ _ _ _ _ Hpre).
  rewrite (run_after_success _ _ _ _ _ _ Hdisp Hok).
  unfold Submitter.finally_block. unfold_monad. rewrite Hok. simpl.
  destruct (Submitter.onSuccess params) as [f|] eqn:Hf; simpl.
  - pose proof (Hsucc f eq_refl (td, response s2) (st_heap s2)) as Hf_ok.
    destruct (f _ _) as [[[]|?] h1]; [| discriminate Hf_ok]. simpl.
    destruct (Submitter.mutate params) as [m|] eqn:Hm; simpl.
    + destruct (m td h1) as [[[]|e] h2] eqn:Em; simpl;
        (split; [done |]; split; [by rewrite <- app_assoc |]);
        [done |].
      intros Hmut. pose proof (Hmut m eq_refl td h1) as Hm_ok.
      rewrite Em in Hm_ok. discriminate Hm_ok.
    + done.
  - destruct (Submitter.mutate params) as [m|] eqn:Hm; simpl.
    + destruct (m td (st_heap s2)) as [[[]|e] h2] eqn:Em; simpl;
        (split; [done |]; split; [done |]); [done |].
      intros Hmut. pose proof (Hmut m eq_refl td (st_heap s2)) as Hm_ok.
      rewrite Em in Hm_ok. discriminate Hm_ok.
    + by rewrite app_nil_r.
Qed.

(** X9. An [onSuccess] that throws is not caught: the promise rejects with
    what it threw, [mutate] and [onError] are not called, and the flag has
    already been cleared. *)
Theorem throwing_onSuccess_skips_mutate_and_rejects :
  ∀ destination params confirm fetch data event h failed td s1 s2 f e h1,
    prelude (Submitter.transform params) (Submitter.confirmation params)
      confirm data event (start h failed) = (Ok (Some td), s1) →
    dispatch destination (Submitter.defaultValues params)
      (Submitter.method params) (Submitter.fetchOptions params) fetch td s1
    = (Ok tt, s2) →
    submitOk s2 = true →
    Submitter.onSuccess params = Some f →
    f (td, response s2) (st_heap s2) = (Throw e, h1) →
    let run :=
      Submitter.submitter destination params confirm fetch data event
        (start h failed) in
    fst run = Throw e
    ∧ isFailed (snd run) = false
    ∧ log (snd run) = log s2 ++ [EvOnSuccess td (response s2)]
    ∧ fired KMutate (log (snd run)) = 0%nat
    ∧ fired KOnError (log (snd run)) = 0%nat.
Proof.
  intros destination params confirm fetch data event h failed td s1 s2 f e h1
    Hpre Hdisp Hok Hf He run. subst run.
  destruct (prelude_spec _ _ _ _ _ _ _ _ Hpre)
    as (_ & (evs1 & Hlog1 & Hk1) & _).
  destruct (dispatch_spec _ _ _ _ _ _ _ _ _ Hdisp)
    as (_ & (evs2 & Hlog2 & Hk2) & _).
  simpl in Hlog1.
  rewrite (submitter_after_prelude _ _ _ _ _ _ _ _ _ Hpre).
  rewrite (run_after_success _ _ _ _ _ _ Hdisp Hok).
  unfold Submitter.finally_block. unfold_monad. rewrite Hok, Hf. simpl.
  rewrite He. simpl. do 3 (split; [done |]).
  rewrite Hlog2, Hlog1. split; settle Hk1 Hk2.
Qed.

(** X10. An [onError] that throws is not caught either: the [finally] block
    still sets the flag, and the promise rejects with what [onError] threw,
    not with the exception it was given. *)
Theorem throwing_onError_rejects_after_setting_the_flag :
  ∀ destination params confirm fetch data event h failed td s1 e s2 g e' h1,
    prelude (Submitter.transform params) (Submitter.confirmation params)
      confirm data event (start h failed) = (Ok (Some td), s1) →
    dispatch destination (Submitter.defaultValues params)
      (Submitter.method params) (Submitter.fetchOptions params) fetch td s1
    = (Throw e, s2) →
    Submitter.onError params = Some g →
    g e (st_heap s2) = (Throw e', h1) →
    let run :=
      Submitter.submitter destination params confirm fetch data event
        (start h failed) in
    fst run = Throw e'
    ∧ isFailed (snd run) = true
    ∧ log (snd run) = log s2 ++ [EvOnError e].
Proof.
  intros destination params confirm fetch data event h failed td s1 e s2 g
    e' h1 Hpre Hdisp Hg He' run. subst run.
  destruct (prelude_spec _ _ _ _ _ _ _ _ Hpre) as (_ & _ & Hloc).
  destruct (Hloc td eq_refl) as [Hok1 _].
  destruct (dispatch_spec _ _ _ _ _ _ _ _ _ Hdisp) as (_ & _ & Hthrow).
  destruct (Hthrow e eq_refl) as [Hok2 _]. rewrite Hok1 in Hok2.
  rewrite (submitter_after_prelude _ _ _ _ _ _ _ _ _ Hpre).
  rewrite (run_after_throw _ _ _ _ _ _ _ Hdisp).
  unfold Submitter.catch_block, Submitter.finally_block. unfold_monad.
  rewrite Hg. simpl. rewrite He'. simpl. rewrite Hok2. simpl. done.
Qed.

Lemma returns_never_throws {A} : never_throws_opt (Some (@Example.returns A)).
Proof. intros g Hg. injection Hg as <-. intros a h. reflexivity. Defined.

Lemma success_calls_onSuccess_then_mutate_witness :
  ∃ s1 s2,
    prelude (Submitter.transform Example.all_callbacks)
      (Submitter.confirmation Example.all_callbacks) Example.accept 0%nat None
      (start Example.store true) = (Ok (Some 0%nat), s1)
    ∧ dispatch (Endpoint Example.url)
        (Submitter.defaultValues Example.all_callbacks)
        (Submitter.method Example.all_callbacks)
        (Submitter.fetchOptions Example.all_callbacks) Example.fetch_200
        0%nat s1 = (Ok tt, s2)
    ∧ submitOk s2 = true
    ∧ never_throws_opt (Submitter.onSuccess Example.all_callbacks)
    ∧ isFailed
        (snd (Submitter.submitter (Endpoint Example.url) Example.all_callbacks
                Example.accept Example.fetch_200 0%nat None
                (start Example.store true))) = false.
Proof.
  set (s1 := snd (prelude (Submitter.transform Example.all_callbacks)
                    (Submitter.confirmation Example.all_callbacks)
                    Example.accept 0%nat None (start Example.store true))).
  set (s2 := snd (dispatch (Endpoint Example.url)
                    (Submitter.defaultValues Example.all_callbacks)
                    (Submitter.method Example.all_callbacks)
                    (Submitter.fetchOptions Example.all_callbacks)
                    Example.fetch_200 0%nat s1)).
  assert (H1 : prelude (Submitter.transform Example.all_callbacks)
                 (Submitter.confirmation Example.all_callbacks)
                 Example.accept 0%nat None (start Example.store true)
               = (Ok (Some 0%nat), s1)) by reflexivity.
  assert (H2 : dispatch (Endpoint Example.url)
                 (Submitter.defaultValues Example.all_callbacks)
                 (Submitter.method Example.all_callbacks)
                 (Submitter.fetchOptions Example.all_callbacks)
                 Example.fetch_200 0%nat s1 = (Ok tt, s2)) by reflexivity.
  assert (H3 : submitOk s2 = true) by reflexivity.
  exists s1, s2. split; [exact H1 |]. split; [exact H2 |].
  split; [exact H3 |]. split; [exact returns_never_throws |].
  exact (proj1 (success_calls_onSuccess_then_mutate (Endpoint Example.url)
                  Example.all_callbacks Example.accept Example.fetch_200
                  0%nat None Example.store true 0%nat s1 s2 H1 H2 H3
                  returns_never_throws)).
Defined.

Lemma throwing_onSuccess_skips_mutate_and_rejects_witness :
  ∃ s1 s2,
    prelude (Submitter.transform Example.throwing_onSuccess)
      (Submitter.confirmation Example.throwing_onSuccess) Example.accept
      0%nat None (start Example.store true) = (Ok (Some 0%nat), s1)
    ∧ dispatch (Action Example.action_true)
        (Submitter.defaultValues Example.throwing_onSuccess)
        (Submitter.method Example.throwing_onSuccess)
        (Submitter.fetchOptions Example.throwing_onSuccess) Example.fetch_200
        0%nat s1 = (Ok tt, s2)
    ∧ submitOk s2 = true
    ∧ Submitter.onSuccess Example.throwing_onSuccess = Some Example.throws
    ∧ Example.throws (0%nat, response s2) (st_heap s2)
      = (Throw (Thrown (VString "boom")), st_heap s2)
    ∧ fst (Submitter.submitter (Action Example.action_true)
             Example.throwing_onSuccess Example.accept Example.fetch_200
             0%nat None (start Example.store true))
      = Throw (Thrown (VString "boom")).
Proof.
  set (s1 := snd (prelude (Submitter.transform Example.throwing_onSuccess)
                    (Submitter.confirmation Example.throwing_onSuccess)
                    Example.accept 0%nat None (start Example.store true))).
  set (s2 := snd (dispatch (Action Example.action_true)
                    (Submitter.defaultValues Example.throwing_onSuccess)
                    (Submitter.method Example.throwing_onSuccess)
                    (Submitter.fetchOptions Example.throwing_onSuccess)
                    Example.fetch_200 0%nat s1)).
  assert (H1 : prelude (Submitter.transform Example.throwing_onSuccess)
                 (Submitter.confirmation Example.throwing_onSuccess)
                 Example.accept 0%nat None (start Example.store true)
               = (Ok (Some 0%nat), s1)) by reflexivity.
  assert (H2 : dispatch (Action Example.action_true)
                 (Submitter.defaultValues Example.throwing_onSuccess)
                 (Submitter.method Example.throwing_onSuccess)
                 (Submitter.fetchOptions Example.throwing_onSuccess)
                 Example.fetch_200 0%nat s1 = (Ok tt, s2)) by reflexivity.
  assert (H3 : submitOk s2 = true) by reflexivity.
  assert (H4 : Submitter.onSuccess Example.throwing_onSuccess
               = Some Example.throws) by reflexivity.
  assert (H5 : Example.throws (0%nat, response s2) (st_heap s2)
               = (Throw (Thrown (VString "boom")), st_heap s2))
    by reflexivity.
  exists s1, s2. split; [exact H1 |]. split; [exact H2 |].
  split; [exact H3 |]. split; [exact H4 |]. split; [exact H5 |].
  exact (proj1 (throwing_onSuccess_skips_mutate_and_rejects
                  (Action Example.action_true) Example.throwing_onSuccess
                  Example.accept Example.fetch_200 0%nat None Example.store
                  true 0%nat s1 s2 Example.throws (Thrown (VString "boom"))
                  (st_heap s2) H1 H2 H3 H4 H5)).
Defined.

Lemma throwing_onError_rejects_after_setting_the_flag_witness :
  ∃ s1 s2,
    prelude (Submitter.transform Example.throwing_onError)
      (Submitter.confirmation Example.throwing_onError) Example.accept
      0%nat None (start Example.store false) = (Ok (Some 0%nat), s1)
    ∧ dispatch (Endpoint Example.url)
        (Submitter.defaultValues Example.throwing_onError)
        (Submitter.method Example.throwing_onError)
        (Submitter.fetchOptions Example.throwing_onError) Example.fetch_fails
        0%nat s1 = (Throw (TypeError "Failed to fetch"), s2)
    ∧ Submitter.onError Example.throwing_onError = Some Example.throws
    ∧ Example.throws (TypeError "Failed to fetch") (st_heap s2)
      = (Throw (Thrown (VString "boom")), st_heap s2)
    ∧ fst (Submitter.submitter (Endpoint Example.url)
             Example.throwing_onError Example.accept Example.fetch_fails
             0%nat None (start Example.store false))
      = Throw (Thrown (VString "boom")).
Proof.
  set (s1 := snd (prelude (Submitter.transform Example.throwing_onError)
                    (Submitter.confirmation Example.throwing_onError)
                    Example.accept 0%nat None (start Example.store false))).
  set (s2 := snd (dispatch (Endpoint Example.url)
                    (Submitter.defaultValues Example.throwing_onError)
                    (Submitter.method Example.throwing_onError)
                    (Submitter.fetchOptions Example.throwing_onError)
                    Example.fetch_fails 0%nat s1)).
  assert (H1 : prelude (Submitter.transform Example.throwing_onError)
                 (Submitter.confirmation Example.throwing_onError)
                 Example.accept 0%nat None (start Example.store false)
               = (Ok (Some 0%nat), s1)) by reflexivity.
  assert (H2 : dispatch (Endpoint Example.url)
                 (Submitter.defaultValues Example.throwing_onError)
                 (Submitter.method Example.throwing_onError)
                 (Submitter.fetchOptions Example.throwing_onError)
                 Example.fetch_fails 0%nat s1
               = (Throw (TypeError "Failed to fetch"), s2)) by reflexivity.
  assert (H3 : Submitter.onError Example.throwing_onError
               = Some Example.throws) by reflexivity.
  assert (H4 : Example.throws (TypeError "Failed to fetch") (st_heap s2)
               = (Throw (Thrown (VString "boom")), st_heap s2))
    by reflexivity.
  exists s1, s2. split; [exact H1 |]. split; [exact H2 |].
  split; [exact H3 |]. split; [exact H4 |].
  exact (proj1 (throwing_onError_rejects_after_setting_the_flag
                  (Endpoint Example.url) Example.throwing_onError
                  Example.accept Example.fetch_fails 0%nat None Example.store
                  false 0%nat s1 (TypeError "Failed to fetch") s2
                  Example.throws (Thrown (VString "boom")) (st_heap s2)
                  H1 H2 H3 H4)).
Defined.

(** ** A destination function *)

(** X11. With a function as destination, a call that gets past the prelude
    calls that function exactly once, first thing after the prelude, and
    never calls [fetch]; no response exists at any point of the call.
    Without default values the function is given the transformed data
    itself, the same reference the callbacks get; with default values it is
    given a reference that did not exist before the call. *)
Theorem destination_function_is_called_once_with_the_diff :
  ∀ f params confirm fetch data event h failed td s1,
    prelude (Submitter.transform params) (Submitter.confirmation params)
      confirm data event (start h failed) = (Ok (Some td), s1) →
    let run :=
      Submitter.submitter (Action f) params confirm fetch data event
        (start h failed) in
    let diff :=
      match Submitter.defaultValues params with
      | Some _ => length (st_heap s1)
      | None => td
      end in
    fired KDestination (log (snd run)) = 1%nat
    ∧ fired KFetch (log (snd run)) = 0%nat
    ∧ (∃ after, log (snd run) = log s1 ++ EvDestination diff :: after)
    ∧ response (snd run) = None
    ∧ match Submitter.defaultValues params with
      | Some _ => st_heap s1 !! diff = None
      | None => diff = td
      end.
Proof.
  intros f params confirm fetch data event h failed td s1 Hpre run diff.
  subst run diff.
  destruct (prelude_spec _ _ _ _ _ _ _ _ Hpre)
    as (_ & (evs1 & Hlog1 & Hk1) & Hloc).
  destruct (Hloc td eq_refl) as [Hok1 Hresp1]. simpl in Hlog1.
  rewrite (submitter_after_prelude _ _ _ _ _ _ _ _ _ Hpre).
  unfold try_catch_finally, Submitter.try_block, dispatch, without_defaults,
    Submitter.catch_block, Submitter.finally_block.
  unfold_monad.
  destruct (Submitter.defaultValues params) as [d|]; case_run; simpl;
    (split; [rewrite Hlog1, !fired_app, (Hk1 KDestination eq_refl);
             reflexivity |];
     split; [rewrite Hlog1, !fired_app, (Hk1 KFetch eq_refl); reflexivity |];
     split; [eexists; rewrite <- ?app_assoc; simpl; reflexivity |];
     split; [exact Hresp1 |];
     first [reflexivity | by apply lookup_ge_None]).
Qed.

Lemma destination_function_is_called_once_with_the_diff_witness :
  ∃ s1,
    prelude (Submitter.transform Example.all_callbacks)
      (Submitter.confirmation Example.all_callbacks) Example.accept 0%nat None
      (start Example.store false) = (Ok (Some 0%nat), s1)
    ∧ fired KDestination
        (log (snd (Submitter.submitter (Action Example.action_true)
                     Example.all_callbacks Example.accept Example.fetch_200
                     0%nat None (start Example.store false)))) = 1%nat.
Proof.
  set (s1 := snd (prelude (Submitter.transform Example.all_callbacks)
                    (Submitter.confirmation Example.all_callbacks)
                    Example.accept 0%nat None (start Example.store false))).
  assert (H1 : prelude (Submitter.transform Example.all_callbacks)
                 (Submitter.confirmation Example.all_callbacks)
                 Example.accept 0%nat None (start Example.store false)
               = (Ok (Some 0%nat), s1)) by reflexivity.
  exists s1. split; [exact H1 |].
  exact (proj1 (destination_function_is_called_once_with_the_diff
                  Example.action_true Example.all_callbacks Example.accept
                  Example.fetch_200 0%nat None Example.store false 0%nat s1
                  H1)).
Defined.

(** ** The variant after the dispatch *)

Lemma reset_submitter_after_prelude destination params confirm fetch data event
  s td s1 :
  prelude (ResetSubmitter.transform params)
    (ResetSubmitter.confirmation params) confirm data event s
  = (Ok (Some td), s1) →
  ResetSubmitter.submitter destination params confirm fetch data event s
  = try_catch_finally (ResetSubmitter.try_block destination params fetch td)
      (ResetSubmitter.catch_block params)
      (ResetSubmitter.finally_block params data td) s1.
Proof. intros H. unfold ResetSubmitter.submitter, bind. by rewrite H. Qed.

(** X12. On success the variant clears the flag and then calls, in this
    order and once each, [reset] without argument, [on_success] with the
    transformed data and the response, and [mutate], with the reference of
    the default values when there are default values and with the
    transformed data otherwise. When [reset] and [on_success] return
    normally the promise resolves, even if [mutate] throws: [mutate_data] is
    an async function that nobody awaits. *)
Theorem variant_success_resets_then_calls_back_then_mutates :
  ∀ destination params confirm fetch data event h failed td s1 s2,
    prelude (ResetSubmitter.transform params)
      (ResetSubmitter.confirmation params) confirm data event
      (start h failed) = (Ok (Some td), s1) →
    dispatch destination (ResetSubmitter.default_values params)
      (ResetSubmitter.method params) (ResetSubmitter.fetch_options params)
      fetch td s1 = (Ok tt, s2) →
    submitOk s2 = true →
    never_throws_opt (ResetSubmitter.reset params) →
    never_throws_opt (ResetSubmitter.on_success params) →
    let run :=
      ResetSubmitter.submitter destination params confirm fetch data event
        (start h failed) in
    fst run = Ok tt
    ∧ isFailed (snd run) = false
    ∧ log (snd run)
      = log s2
        ++ (match ResetSubmitter.reset params with
            | Some _ => [EvReset None]
            | None => []
            end)
        ++ (match ResetSubmitter.on_success params with
            | Some _ => [EvOnSuccess td (response s2)]
            | None => []
            end)
        ++ (match ResetSubmitter.mutate params with
            | Some _ =>
                [EvMutate (match ResetSubmitter.default_values params with
                           | Some d => d
                           | None => td
                           end)]
            | None => []
            end).
Proof.
  intros destination params confirm fetch data event h failed td s1 s2
    Hpre Hdisp Hok Hreset Hsucc run. subst run.
  rewrite (reset_submitter_after_prelude _ _ _ _ _ _ _ _ _ Hpre).
  unfold try_catch_finally, ResetSubmitter.try_block. rewrite Hdisp.
  unfold ResetSubmitter.finally_block. unfold_monad. rewrite Hok. simpl.
  destruct (ResetSubmitter.reset params) as [g|] eqn:Hg; simpl;
    [pose proof (Hreset g eq_refl None (st_heap s2)) as Hg_ok;
     destruct (g None (st_heap s2)) as [[[]|?] h1]; [| discriminate Hg_ok];
     simpl |];
    (destruct (ResetSubmitter.on_success params) as [k|] eqn:Hk; simpl;
     [match goal with
      | |- context [k ?a ?hh] =>
          pose proof (Hsucc k eq_refl a hh) as Hk_ok;
          destruct (k a hh) as [[[]|?] h2]; [| discriminate Hk_ok]
      end; simpl |];
     (destruct (ResetSubmitter.mutate params) as [m|] eqn:Hm; simpl;
      [match goal with
       | |- context [ResetSubmitter.mutate_data ?m ?t ?dv ?s] =>
           destruct (mutate_data_log m t dv s) as (r & h' & ->)
       end; simpl |];
      rewrite <- ?app_assoc, ?app_nil_r; done)).
Qed.

Lemma variant_success_resets_then_calls_back_then_mutates_witness :
  ∃ s1 s2,
    prelude (ResetSubmitter.transform Example.reset_throwing_mutate)
      (ResetSubmitter.confirmation Example.reset_throwing_mutate)
      Example.accept 0%nat None (start Example.store true)
    = (Ok (Some 0%nat), s1)
    ∧ dispatch (Action Example.action_true)
        (ResetSubmitter.default_values Example.reset_throwing_mutate)
        (ResetSubmitter.method Example.reset_throwing_mutate)
        (ResetSubmitter.fetch_options Example.reset_throwing_mutate)
        Example.fetch_200 0%nat s1 = (Ok tt, s2)
    ∧ submitOk s2 = true
    ∧ never_throws_opt (ResetSubmitter.reset Example.reset_throwing_mutate)
    ∧ never_throws_opt
        (ResetSubmitter.on_success Example.reset_throwing_mutate)
    ∧ fst (ResetSubmitter.submitter (Action Example.action_true)
             Example.reset_throwing_mutate Example.accept Example.fetch_200
             0%nat None (start Example.store true)) = Ok tt.
Proof.
  set (s1 := snd (prelude
                    (ResetSubmitter.transform Example.reset_throwing_mutate)
                    (ResetSubmitter.confirmation Example.reset_throwing_mutate)
                    Example.accept 0%nat None (start Example.store true))).
  set (s2 := snd (dispatch (Action Example.action_true)
                    (ResetSubmitter.default_values Example.reset_throwing_mutate)
                    (ResetSubmitter.method Example.reset_throwing_mutate)
                    (ResetSubmitter.fetch_options Example.reset_throwing_mutate)
                    Example.fetch_200 0%nat s1)).
  assert (H1 : prelude
                 (ResetSubmitter.transform Example.reset_throwing_mutate)
                 (ResetSubmitter.confirmation Example.reset_throwing_mutate)
                 Example.accept 0%nat None (start Example.store true)
               = (Ok (Some 0%nat), s1)) by reflexivity.
  assert (H2 : dispatch (Action Example.action_true)
                 (ResetSubmitter.default_values Example.reset_throwing_mutate)
                 (ResetSubmitter.method Example.reset_throwing_mutate)
                 (ResetSubmitter.fetch_options Example.reset_throwing_mutate)
                 Example.fetch_200 0%nat s1 = (Ok tt, s2)) by reflexivity.
  assert (H3 : submitOk s2 = true) by reflexivity.
  exists s1, s2. split; [exact H1 |]. split; [exact H2 |].
  split; [exact H3 |]. split; [exact returns_never_throws |].
  split; [exact returns_never_throws |].
  exact (proj1 (variant_success_resets_then_calls_back_then_mutates
                  (Action Example.action_true) Example.reset_throwing_mutate
                  Example.accept Example.fetch_200 0%nat None Example.store
                  true 0%nat s1 s2 H1 H2 H3 returns_never_throws
                  returns_never_throws)).
Defined.

(** X13. The variant has no failure callback. When the dispatch returns and
    reports non-success, the flag is set and the only call that follows is
    [reset], given the raw data of the call (not the transformed data);
    without [reset] nothing tells the caller but the flag. When the dispatch
    throws, [on_error] comes first and the same [reset] follows, also when
    [on_error] itself throws. *)
Theorem variant_failure_resets_with_the_raw_data :
  (∀ destination params confirm fetch data event h failed td s1 s2,
     prelude (ResetSubmitter.transform params)
       (ResetSubmitter.confirmation params) confirm data event
       (start h failed) = (Ok (Some td), s1) →
     dispatch destination (ResetSubmitter.default_values params)
       (ResetSubmitter.method params) (ResetSubmitter.fetch_options params)
       fetch td s1 = (Ok tt, s2) →
     submitOk s2 = false →
     let run :=
       ResetSubmitter.submitter destination params confirm fetch data event
         (start h failed) in
     isFailed (snd run) = true
     ∧ log (snd run)
       = log s2
         ++ (match ResetSubmitter.reset params with
             | Some _ => [EvReset (Some data)]
             | None => []
             end))
  ∧ (∀ destination params confirm fetch data event h failed td s1 e s2,
       prelude (ResetSubmitter.transform params)
         (ResetSubmitter.confirmation params) confirm data event
         (start h failed) = (Ok (Some td), s1) →
       dispatch destination (ResetSubmitter.default_values params)
         (ResetSubmitter.method params) (ResetSubmitter.fetch_options params)
         fetch td s1 = (Throw e, s2) →
       let run :=
         ResetSubmitter.submitter destination params confirm fetch data event
           (start h failed) in
       isFailed (snd run) = true
       ∧ log (snd run)
         = log s2
           ++ (match ResetSubmitter.on_error params with
               | Some _ => [EvOnError e]
               | None => []
               end)
           ++ (match ResetSubmitter.reset params with
               | Some _ => [EvReset (Some data)]
               | None => []
               end)).
Proof.
  split.
  - intros destination params confirm fetch data event h failed td s1 s2
      Hpre Hdisp Hok run. subst run.
    rewrite (reset_submitter_after_prelude _ _ _ _ _ _ _ _ _ Hpre).
    unfold try_catch_finally, ResetSubmitter.try_block. rewrite Hdisp.
    unfold ResetSubmitter.finally_block. unfold_monad. rewrite Hok. simpl.
    destruct (ResetSubmitter.reset params) as [g|]; simpl;
      [destruct (g _ _) as [[[]|?] ?] |]; simpl;
      rewrite ?app_nil_r; done.
  - intros destination params confirm fetch data event h failed td s1 e s2
      Hpre Hdisp run. subst run.
    destruct (prelude_spec _ _ _ _ _ _ _ _ Hpre) as (_ & _ & Hloc).
    destruct (Hloc td eq_refl) as [Hok1 _].
    destruct (dispatch_spec _ _ _ _ _ _ _ _ _ Hdisp) as (_ & _ & Hthrow).
    destruct (Hthrow e eq_refl) as [Hok2 _]. rewrite Hok1 in Hok2.
    rewrite (reset_submitter_after_prelude _ _ _ _ _ _ _ _ _ Hpre).
    unfold try_catch_finally, ResetSubmitter.try_block. rewrite Hdisp.
    unfold ResetSubmitter.catch_block, ResetSubmitter.finally_block.
    unfold_monad.
    destruct (ResetSubmitter.on_error params) as [k|]; simpl;
      [destruct (k _ _) as [[[]|?] ?] |]; simpl; rewrite Hok2; simpl;
      (destruct (ResetSubmitter.reset params) as [g|]; simpl;
       [destruct (g _ _) as [[[]|?] ?] |]; simpl;
       rewrite <- ?app_assoc, ?app_nil_r; done).
Qed.

Lemma variant_failure_resets_with_the_raw_data_witness :
  ∃ s1 s2,
    prelude (ResetSubmitter.transform Example.reset_all)
      (ResetSubmitter.confirmation Example.reset_all) Example.accept 0%nat
      None (start Example.store false) = (Ok (Some 0%nat), s1)
    ∧ dispatch (Action Example.action_false)
        (ResetSubmitter.default_values Example.reset_all)
        (ResetSubmitter.method Example.reset_all)
        (ResetSubmitter.fetch_options Example.reset_all) Example.fetch_200
        0%nat s1 = (Ok tt, s2)
    ∧ submitOk s2 = false
    ∧ log (snd (ResetSubmitter.submitter (Action Example.action_false)
                  Example.reset_all Example.accept Example.fetch_200 0%nat
                  None (start Example.store false)))
      = log s2 ++ [EvReset (Some 0%nat)].
Proof.
  set (s1 := snd (prelude (ResetSubmitter.transform Example.reset_all)
                    (ResetSubmitter.confirmation Example.reset_all)
                    Example.accept 0%nat None (start Example.store false))).
  set (s2 := snd (dispatch (Action Example.action_false)
                    (ResetSubmitter.default_values Example.reset_all)
                    (ResetSubmitter.method Example.reset_all)
                    (ResetSubmitter.fetch_options Example.reset_all)
                    Example.fetch_200 0%nat s1)).
  assert (H1 : prelude (ResetSubmitter.transform Example.reset_all)
                 (ResetSubmitter.confirmation Example.reset_all)
                 Example.accept 0%nat None (start Example.store false)
               = (Ok (Some 0%nat), s1)) by reflexivity.
  assert (H2 : dispatch (Action Example.action_false)
                 (ResetSubmitter.default_values Example.reset_all)
                 (ResetSubmitter.method Example.reset_all)
                 (ResetSubmitter.fetch_options Example.reset_all)
                 Example.fetch_200 0%nat s1 = (Ok tt, s2)) by reflexivity.
  assert (H3 : submitOk s2 = false) by reflexivity.
  exists s1, s2. split; [exact H1 |]. split; [exact H2 |].
  split; [exact H3 |].
  exact (proj2 (proj1 variant_failure_resets_with_the_raw_data
                  (Action Example.action_false) Example.reset_all
                  Example.accept Example.fetch_200 0%nat None Example.store
                  false 0%nat s1 s2 H1 H2 H3)).
Defined.

(** ** What cannot be encoded *)

Lemma to_form_data_loop_bigint entries defaults acc k z :
  (k, VBigInt z) ∈ entries →
  kept defaults (k, VBigInt z) = true →
  ∃ e, to_form_data_loop entries defaults acc = Throw e.
Proof.
  revert acc. induction entries as [|[k' v'] rest IH]; intros acc Hin Hkept.
  - by apply elem_of_nil in Hin.
  - simpl.
    change (match defaults with
            | Some d => negb (is_same_values v' (get_prop d k'))
            | None => true
            end) with (kept defaults (k', v')).
    apply elem_of_cons in Hin as [[= <- <-]|Hin].
    + rewrite Hkept. simpl. eauto.
    + destruct (kept defaults (k', v')); [| by apply IH].
      destruct (form_value_of v') as [fv|e]; [by apply IH | eauto].
Qed.

(** X14. A BigInt cannot be sent to an endpoint. When the transformed data
    holds a BigInt at a key the diff keeps, encoding the payload throws
    before anything is sent: [fetch] is not called, the exception goes to
    [onError] (when given), neither [onSuccess], [onFailure] nor [mutate] is
    called, and the flag is set. *)
Theorem bigint_field_fails_before_fetch :
  ∀ url params confirm fetch data event h failed td s1 k z,
    prelude (Submitter.transform params) (Submitter.confirmation params)
      confirm data event (start h failed) = (Ok (Some td), s1) →
    (k, VBigInt z) ∈ deref (st_heap s1) td →
    match Submitter.defaultValues params with
    | Some d =>
        is_same_values (VBigInt z) (get_prop (deref (st_heap s1) d) k) = false
    | None => True
    end →
    let run :=
      Submitter.submitter (Endpoint url) params confirm fetch data event
        (start h failed) in
    fired KFetch (log (snd run)) = 0%nat
    ∧ isFailed (snd run) = true
    ∧ fired KOnError (log (snd run))
      = (match Submitter.onError params with Some _ => 1%nat | None => 0%nat end)
    ∧ fired KOnSuccess (log (snd run)) = 0%nat
    ∧ fired KOnFailure (log (snd run)) = 0%nat
    ∧ fired KMutate (log (snd run)) = 0%nat.
Proof.
  intros url params confirm fetch data event h failed td s1 k z
    Hpre Hin Hkept run. subst run.
  destruct (prelude_spec _ _ _ _ _ _ _ _ Hpre)
    as (_ & (evs1 & Hlog1 & Hk1) & Hloc).
  destruct (Hloc td eq_refl) as [Hok1 _]. simpl in Hlog1.
  assert (Hdisp : ∃ e,
            dispatch (Endpoint url) (Submitter.defaultValues params)
              (Submitter.method params) (Submitter.fetchOptions params)
              fetch td s1 = (Throw e, s1)).
  { unfold dispatch, to_form_data_without_default. unfold_monad.
    destruct (Submitter.defaultValues params) as [d|]; simpl.
    - destruct (to_form_data_loop_bigint (deref (st_heap s1) td)
                  (Some (deref (st_heap s1) d)) [] k z Hin) as [e ->].
      + unfold kept, changed. simpl. by rewrite Hkept.
      + by exists e.
    - destruct (to_form_data_loop_bigint (deref (st_heap s1) td) None [] k z
                  Hin eq_refl) as [e ->].
      by exists e. }
  destruct Hdisp as [e Hdisp].
  rewrite (submitter_after_prelude _ _ _ _ _ _ _ _ _ Hpre).
  rewrite (run_after_throw _ _ _ _ _ _ _ Hdisp).
  unfold Submitter.catch_block, Submitter.finally_block. unfold_monad.
  destruct (Submitter.onError params) as [g|]; simpl;
    [destruct (g _ _) as [[[]|?] ?] |]; simpl; rewrite Hok1; simpl;
    rewrite Hlog1, ?fired_app, ?Hk1 by done; done.
Qed.

Lemma bigint_field_fails_before_fetch_witness :
  ∃ s1,
    prelude (Submitter.transform Example.all_callbacks)
      (Submitter.confirmation Example.all_callbacks) Example.accept 0%nat None
      (start Example.store_bigint false) = (Ok (Some 0%nat), s1)
    ∧ ("id"%string, VBigInt 7) ∈ deref (st_heap s1) 0%nat
    ∧ is_same_values (VBigInt 7) (get_prop (deref (st_heap s1) 1%nat) "id")
      = false
    ∧ fired KFetch
        (log (snd (Submitter.submitter (Endpoint Example.url)
                     Example.all_callbacks Example.accept Example.fetch_200
                     0%nat None (start Example.store_bigint false)))) = 0%nat.
Proof.
  set (s1 := snd (prelude (Submitter.transform Example.all_callbacks)
                    (Submitter.confirmation Example.all_callbacks)
                    Example.accept 0%nat None
                    (start Example.store_bigint false))).
  assert (H1 : prelude (Submitter.transform Example.all_callbacks)
                 (Submitter.confirmation Example.all_callbacks)
                 Example.accept 0%nat None (start Example.store_bigint false)
               = (Ok (Some 0%nat), s1)) by reflexivity.
  assert (H2 : ("id"%string, VBigInt 7) ∈ deref (st_heap s1) 0%nat).
  { simpl. apply elem_of_cons. right. apply elem_of_cons. by left. }
  assert (H3 : is_same_values (VBigInt 7)
                 (get_prop (deref (st_heap s1) 1%nat) "id") = false)
    by reflexivity.
  exists s1. split; [exact H1 |]. split; [exact H2 |]. split; [exact H3 |].
  exact (proj1 (bigint_field_fails_before_fetch Example.url
                  Example.all_callbacks Example.accept Example.fetch_200
                  0%nat None Example.store_bigint false 0%nat s1 "id"%string
                  7%Z H1 H2 H3)).
Defined.

(** ** More on the baseline refresh *)

Lemma Object_keys_refreshed defaults submitted :
  Object_keys (refreshed defaults submitted) = Object_keys defaults.
Proof.
  unfold refreshed, Object_keys. rewrite map_map. by apply map_ext.
Qed.

Lemma refreshed_idem defaults submitted :
  refreshed (refreshed defaults submitted) submitted
  = refreshed defaults submitted.
Proof.
  unfold refreshed. rewrite map_map. apply map_ext. intros [k old]. simpl.
  destruct (is_nullish old) eqn:Hold,
    (is_nullish (get_prop submitted k)) eqn:Hnew; simpl;
    rewrite ?Hold, ?Hnew, ?orb_true_r; reflexivity.
Qed.

Lemma mutate_data_loop_result data d s :
  NoDup (Object_keys (deref (st_heap s) d)) →
  ResetSubmitter.mutate_data_loop (Object_keys (deref (st_heap s) d)) data d s
  = (Ok tt,
     with_heap s
       (<[d:=refreshed (deref (st_heap s) d) (deref (st_heap s) data)]>
          (st_heap s))).
Proof.
  intros Hnd. destruct (decide (d < length (st_heap s))%nat) as [Hlt|Hge].
  - destruct (decide (data = d)) as [->|Hne].
    + rewrite mutate_data_loop_self by done.
      by rewrite refreshed_self, insert_deref, with_heap_same.
    + rewrite mutate_data_loop_other by done.
      pose proof (foldl_refresh_key (deref (st_heap s) data) []
                    (deref (st_heap s) d) Hnd) as Hfold.
      cbn [app] in Hfold. by rewrite Hfold.
  - assert (deref (st_heap s) d = []) as Hbase.
    { unfold deref. by rewrite (proj2 (lookup_ge_None (st_heap s) d)) by lia. }
    rewrite Hbase. simpl. rewrite list_insert_ge by lia.
    unfold ret. by rewrite with_heap_same.
Qed.

(** X15. The merge loop of [mutate_data] changes values only, and only in
    the record of the default values: that record keeps its keys, in their
    order, so a submitted field the defaults do not have never reaches
    [mutate]; every other record of the store, the submitted data included,
    and the size of the store, the flag and the log stay as they were. *)
Theorem mutate_data_loop_keeps_the_keys_and_the_other_records :
  ∀ (data d : loc) (s : state),
    NoDup (Object_keys (deref (st_heap s) d)) →
    let keys := Object_keys (deref (st_heap s) d) in
    ∃ s',
      ResetSubmitter.mutate_data_loop keys data d s = (Ok tt, s')
      ∧ Object_keys (deref (st_heap s') d) = keys
      ∧ (∀ k, own_prop (deref (st_heap s) d) k = None →
              own_prop (deref (st_heap s') d) k = None)
      ∧ length (st_heap s') = length (st_heap s)
      ∧ (∀ l, l ≠ d → deref (st_heap s') l = deref (st_heap s) l)
      ∧ log s' = log s
      ∧ isFailed s' = isFailed s.
Proof.
  intros data d s Hnd keys. subst keys. eexists.
  split; [by apply mutate_data_loop_result |]. simpl.
  assert (Hkeys : Object_keys
                    (deref (<[d:=refreshed (deref (st_heap s) d)
                                    (deref (st_heap s) data)]> (st_heap s)) d)
                  = Object_keys (deref (st_heap s) d)).
  { destruct (decide (d < length (st_heap s))%nat) as [Hlt|Hge].
    - rewrite deref_insert_eq by done. apply Object_keys_refreshed.
    - by rewrite list_insert_ge by lia. }
  split; [exact Hkeys |]. split.
  - intros k Hk. apply own_prop_None. rewrite Hkeys. by apply own_prop_None.
  - split; [apply length_insert |]. split; [| done].
    intros l Hl. by apply deref_insert_ne.
Qed.

Lemma mutate_data_loop_keeps_the_keys_and_the_other_records_witness :
  NoDup (Object_keys (deref (st_heap (start Example.store_blank false)) 1%nat))
  ∧ ∃ s',
      ResetSubmitter.mutate_data_loop
        (Object_keys (deref (st_heap (start Example.store_blank false)) 1%nat))
        0%nat 1%nat (start Example.store_blank false) = (Ok tt, s')
      ∧ Object_keys (deref (st_heap s') 1%nat)
        = Object_keys (deref (st_heap (start Example.store_blank false)) 1%nat).
Proof.
  assert (H : NoDup (Object_keys
                       (deref (st_heap (start Example.store_blank false)) 1%nat))).
  { simpl. apply NoDup_cons. split.
    - intros H. apply list_elem_of_singleton in H. discriminate H.
    - apply NoDup_cons. split; [apply not_elem_of_nil | apply NoDup_nil_2]. }
  split; [exact H |].
  destruct (mutate_data_loop_keeps_the_keys_and_the_other_records 0%nat 1%nat
              (start Example.store_blank false) H) as (s' & Hrun & Hkeys & _).
  exists s'. split; [exact Hrun | exact Hkeys].
Defined.

(** X16. Refreshing twice is refreshing once: after the merge loop has run
    for a submission, running it again for the same submission leaves the
    store as it is. *)
Theorem mutate_data_loop_is_idempotent :
  ∀ (data d : loc) (s : state),
    NoDup (Object_keys (deref (st_heap s) d)) →
    let keys := Object_keys (deref (st_heap s) d) in
    ∃ s',
      ResetSubmitter.mutate_data_loop keys data d s = (Ok tt, s')
      ∧ ResetSubmitter.mutate_data_loop
          (Object_keys (deref (st_heap s') d)) data d s' = (Ok tt, s').
Proof.
  intros data d s Hnd keys. subst keys. eexists.
  split; [by apply mutate_data_loop_result |].
  set (base := deref (st_heap s) d) in *.
  set (sub := deref (st_heap s) data).
  destruct (decide (d < length (st_heap s))%nat) as [Hlt|Hge].
  - destruct (decide (data = d)) as [->|Hne].
    + subst sub. fold base. rewrite refreshed_self by done.
      subst base. rewrite insert_deref, with_heap_same.
      rewrite mutate_data_loop_result by done.
      by rewrite refreshed_self, insert_deref, with_heap_same.
    + rewrite mutate_data_loop_result; simpl.
      * rewrite deref_insert_eq by done.
        rewrite deref_insert_ne by done. fold sub.
        rewrite refreshed_idem. unfold with_heap. simpl.
        by rewrite list_insert_insert_eq.
      * rewrite deref_insert_eq by done.
        by rewrite Object_keys_refreshed.
  - assert (base = []) as Hbase.
    { subst base. unfold deref.
      by rewrite (proj2 (lookup_ge_None (st_heap s) d)) by lia. }
    rewrite Hbase. simpl. rewrite list_insert_ge by lia.
    rewrite with_heap_same. fold base. rewrite Hbase. done.
Qed.

Lemma mutate_data_loop_is_idempotent_witness :
  NoDup (Object_keys (deref (st_heap (start Example.store_blank false)) 1%nat))
  ∧ ∃ s',
      ResetSubmitter.mutate_data_loop
        (Object_keys (deref (st_heap (start Example.store_blank false)) 1%nat))
        0%nat 1%nat (start Example.store_blank false) = (Ok tt, s')
      ∧ ResetSubmitter.mutate_data_loop
          (Object_keys (deref (st_heap s') 1%nat)) 0%nat 1%nat s'
        = (Ok tt, s').
Proof.
  assert (H : NoDup (Object_keys
                       (deref (st_heap (start Example.store_blank false)) 1%nat))).
  { simpl. apply NoDup_cons. split.
    - intros H. apply list_elem_of_singleton in H. discriminate H.
    - apply NoDup_cons. split; [apply not_elem_of_nil | apply NoDup_nil_2]. }
  split; [exact H |].
  exact (mutate_data_loop_is_idempotent 0%nat 1%nat
           (start Example.store_blank false) H).
Defined.

(** ** The options of the request *)

Section SpreadKeys.
Context {V : Type}.
Implicit Types (o base extra : list (string * V)) (k : string) (v : V).



End SpreadKeys.


(** ** The payload as a list *)

Lemma length_filter_le {A} (f : A → bool) (l : list A) :
  (length (List.filter f l) ≤ length l)%nat.
Proof. induction l as [|x l IH]; simpl; [lia |]. destruct (f x); simpl; lia. Qed.

(** X18. The payload never has two entries for one key, and never more
    entries than the data has fields: [append] is called at most once per
    key of the data. *)
Theorem payload_has_each_key_at_most_once :
  ∀ (s : state) (data : loc) (default_data : option loc) fd s',
    NoDup (Object_keys (deref (st_heap s) data)) →
    to_form_data_without_default data default_data s = (Ok fd, s') →
    NoDup (map fst fd)
    ∧ (length fd ≤ length (deref (st_heap s) data))%nat
    ∧ ∀ k, k ∈ map fst fd → k ∈ Object_keys (deref (st_heap s) data).
Proof.
  intros s data default_data fd s' Hnd.
  unfold to_form_data_without_default, read_opt. unfold_monad.
  intros Hrun.
  assert (∃ dd, to_form_data_loop (deref (st_heap s) data) dd [] = Ok fd)
    as [dd H].
  { destruct default_data; simpl in Hrun; injection Hrun as Hrun _; eauto. }
  apply to_form_data_loop_Ok in H as (enc & -> & H). simpl.
  pose proof (Forall2_encodes_keys _ _ H) as Hkeys.
  split; [| split].
  - rewrite Hkeys. by apply NoDup_filter_keys.
  - rewrite <- (length_map fst), Hkeys. unfold Object_keys.
    rewrite length_map. apply length_filter_le.
  - intros k. rewrite Hkeys. unfold Object_keys.
    rewrite !list_elem_of_In, !in_map_iff.
    intros ([k' v] & <- & Hin). apply filter_In in Hin as [Hin _].
    by exists (k', v).
Qed.

Lemma payload_has_each_key_at_most_once_witness :
  NoDup (Object_keys (deref (st_heap (start Example.store false)) 0%nat))
  ∧ to_form_data_without_default 0%nat (Some 1%nat)
      (start Example.store false)
    = (Ok [("age"%string, FString "31")], start Example.store false)
  ∧ NoDup (map fst [("age"%string, FString "31")]).
Proof.
  assert (H : NoDup (Object_keys (deref (st_heap (start Example.store false)) 0%nat))).
  { simpl. apply NoDup_cons. split.
    - intros H. apply list_elem_of_singleton in H. discriminate H.
    - apply NoDup_cons. split; [apply not_elem_of_nil | apply NoDup_nil_2]. }
  assert (H2 : to_form_data_without_default 0%nat (Some 1%nat)
                 (start Example.store false)
               = (Ok [("age"%string, FString "31")], start Example.store false))
    by reflexivity.
  split; [exact H |]. split; [exact H2 |].
  exact (proj1 (payload_has_each_key_at_most_once (start Example.store false)
                  0%nat (Some 1%nat) [("age"%string, FString "31")]
                  (start Example.store false) H H2)).
Defined.

(** ** What the hook writes *)

Lemma grows_same {A} (m : M A) :
  (∀ s, st_heap (snd (m s)) = st_heap s) → grows m.
Proof.
  intros H s r s' Hm. exists []. rewrite app_nil_r.
  specialize (H s). by rewrite Hm in H.
Qed.

Lemma grows_bind {A B} (m : M A) (k : A → M B) :
  grows m → (∀ a, grows (k a)) → grows (bind m k).
Proof.
  intros Hm Hk s r s'. unfold bind.
  destruct (m s) as [[a|e] s1] eqn:Em; destruct (Hm s _ s1 Em) as (x1 & H1).
  - intros Hrun. destruct (Hk a s1 r s' Hrun) as (x2 & H2).
    exists (x1 ++ x2). by rewrite H2, H1, app_assoc.
  - intros [= <- <-]. by exists x1.
Qed.

Lemma grows_call {A B} ev (f : external A B) a :
  reads_only f → grows (call ev f a).
Proof.
  intros Hf s r s'. unfold call. specialize (Hf a (st_heap s)).
  destruct (f a (st_heap s)) as [r' h']. simpl in Hf. subst h'.
  intros [= <- <-]. exists []. by rewrite app_nil_r.
Qed.

Lemma grows_alloc o : grows (alloc o).
Proof. intros s r s'. unfold alloc. intros [= <- <-]. by exists [o]. Qed.

Lemma grows_try_catch_finally body handler final :
  grows body → (∀ e, grows (handler e)) → grows final →
  grows (try_catch_finally body handler final).
Proof.
  intros Hb Hh Hf s r s'. unfold try_catch_finally.
  destruct (body s) as [[[]|e] s1] eqn:Eb; destruct (Hb s _ s1 Eb) as (x1 & H1).
  - intros Hrun. destruct (Hf s1 r s' Hrun) as (x2 & H2).
    exists (x1 ++ x2). by rewrite H2, H1, app_assoc.
  - destruct (handler e s1) as [rh s2] eqn:Eh.
    destruct (Hh e s1 rh s2 Eh) as (x2 & H2).
    destruct (final s2) as [rf s3] eqn:Ef.
    destruct (Hf s2 rf s3 Ef) as (x3 & H3).
    assert (st_heap s3 = st_heap s ++ (x1 ++ x2 ++ x3))
      by (by rewrite H3, H2, H1, <- !app_assoc).
    destruct rh as [[]|e']; [| destruct rf as [[]|e'']];
      intros [= <- <-]; eauto.
Qed.

Ltac grows_auto :=
  repeat
    first
      [ apply grows_alloc
      | apply grows_same; intros ?; reflexivity
      | apply grows_call; solve [auto]
      | apply grows_bind; [| intros ?]
      | match goal with
        | |- grows (match ?x with _ => _ end) => destruct x eqn:?
        | |- grows (if ?b then _ else _) => destruct b
        | |- grows (let _ := _ in _) => cbv zeta
        end ].

(** X19. The hook itself never writes to a record. If the functions it is
    given (the transform, [fetch] or the destination function, and the four
    callbacks) leave the store alone, then after a call every record that
    existed before it, the data and the default values among them, is what
    it was: at most records have been added at the end. (The variant with
    baseline refresh does write, in [mutate_data].) *)
Theorem hook_never_writes_to_a_record :
  ∀ destination params confirm fetch data event h failed,
    reads_only_opt (Submitter.transform params) →
    reads_only fetch →
    (∀ f, destination = Action f → reads_only f) →
    reads_only_opt (Submitter.onSuccess params) →
    reads_only_opt (Submitter.onFailure params) →
    reads_only_opt (Submitter.onError params) →
    reads_only_opt (Submitter.mutate params) →
    let run :=
      Submitter.submitter destination params confirm fetch data event
        (start h failed) in
    (∃ extra, st_heap (snd run) = h ++ extra)
    ∧ ∀ l o, h !! l = Some o → st_heap (snd run) !! l = Some o.
Proof.
  intros destination params confirm fetch data event h failed
    Htr Hfetch Hdest Hsucc Hfail Herr Hmut run.
  assert (Hgrows : grows (Submitter.submitter destination params confirm
                            fetch data event)).
  { unfold Submitter.submitter, prelude.
    apply grows_bind.
    - destruct event; grows_auto.
      all: try (apply grows_call; by apply Htr).
    - intros [td|]; [| grows_auto].
      apply grows_try_catch_finally.
      + unfold Submitter.try_block, dispatch, to_form_data_without_default,
          without_defaults, read_opt.
        destruct destination as [url|f]; grows_auto.
        all: try (apply grows_call; first [by apply Hfail | by apply Hdest]).
      + intros e. unfold Submitter.catch_block. grows_auto.
        all: try (apply grows_call; by apply Herr).
      + unfold Submitter.finally_block. grows_auto.
        all: try (apply grows_call; first [by apply Hsucc | by apply Hmut]). }
  subst run.
  destruct (Submitter.submitter _ _ _ _ _ _ _) as [r s'] eqn:Hrun.
  destruct (Hgrows _ _ _ Hrun) as (extra & Hextra). simpl in *.
  split; [by exists extra |].
  intros l o Hl. rewrite Hextra. by apply lookup_app_l_Some.
Qed.

Lemma returns_reads_only {A} : reads_only_opt (Some (@Example.returns A)).
Proof. intros g Hg. injection Hg as <-. intros a h. reflexivity. Defined.

Lemma hook_never_writes_to_a_record_witness :
  reads_only_opt (Submitter.transform Example.all_callbacks)
  ∧ reads_only Example.fetch_200
  ∧ (∀ f, Endpoint Example.url = Action f → reads_only f)
  ∧ reads_only_opt (Submitter.onSuccess Example.all_callbacks)
  ∧ reads_only_opt (Submitter.onFailure Example.all_callbacks)
  ∧ reads_only_opt (Submitter.onError Example.all_callbacks)
  ∧ reads_only_opt (Submitter.mutate Example.all_callbacks)
  ∧ ∃ extra,
      st_heap (snd (Submitter.submitter (Endpoint Example.url)
                      Example.all_callbacks Example.accept Example.fetch_200
                      0%nat None (start Example.store false)))
      = Example.store ++ extra.
Proof.
  assert (H1 : reads_only_opt (Submitter.transform Example.all_callbacks))
    by (intros g Hg; discriminate Hg).
  assert (H2 : reads_only Example.fetch_200) by (intros a h; reflexivity).
  assert (H3 : ∀ f, Endpoint Example.url = Action f → reads_only f)
    by (intros f Hf; discriminate Hf).
  split; [exact H1 |]. split; [exact H2 |]. split; [exact H3 |].
  split; [exact returns_reads_only |]. split; [exact returns_reads_only |].
  split; [exact returns_reads_only |]. split; [exact returns_reads_only |].
  exact (proj1 (hook_never_writes_to_a_record (Endpoint Example.url)
                  Example.all_callbacks Example.accept Example.fetch_200
                  0%nat None Example.store false H1 H2 H3
                  returns_reads_only returns_reads_only returns_reads_only
                  returns_reads_only)).
Defined.
